(** * LeqoeHunt push-notification client: a shallow embedding

    The repository is one script, [www/js/push-notifications.js], holding the
    class [LeqoeHuntNotifications].  The class talks to four host services (the
    Capacitor push plugin, [fetch], the DOM and web storage) and keeps two
    fields of its own.  The embedding below follows the script method by
    method.  Asynchronous methods are cut at each [await]: the part before the
    [await] is an ordinary computation that files a pending continuation, and
    the host later resumes it with the settlement of the awaited promise. *)

From Stdlib Require Import String Ascii List Bool Arith Lia.
Import ListNotations.
Local Open Scope string_scope.
Local Open Scope list_scope.

(** ** JavaScript values *)

(** A number is kept as the two observations this script can make of one:
    its truth value (false for 0 and NaN) and its decimal rendering. *)
Record number := mkNumber {
  ToBoolean_number : bool;
  ToString_number : string
}.

(** Payloads, permission records, responses and stored user records are all
    data without functions, as JSON and the plugin bridge deliver them.
    Object fields are kept in insertion order. *)
#[warnings="-register-all"]
Inductive value :=
| VUndefined
| VNull
| VBool (b : bool)
| VNum (n : number)
| VString (s : string)
| VArray (items : list value)
| VObject (fields : list (string * value)).

(** What can be thrown: an error object of the engine or the platform, named
    by its constructor, or any value a rejected promise carries. *)
Inductive exn :=
| NativeError (name : string)
| Thrown (v : value).

Definition TypeError : exn := NativeError "TypeError".
Definition SyntaxError : exn := NativeError "SyntaxError".

Inductive result (A : Type) :=
| Ok (a : A)
| Throw (e : exn).
Arguments Ok {A} a.
Arguments Throw {A} e.

Fixpoint lookup (k : string) (fields : list (string * value)) : option value :=
  match fields with
  | [] => None
  | (k', v) :: rest => if String.eqb k k' then Some v else lookup k rest
  end.

(** [o.k] for the property names of this script ([value], [error], [title],
    [body], [data], [notification], [type], [kedai_id], [challenge_id],
    [promo_id], [notification_id], [userId], [receive], [ok], [status]): none
    of them lives on a built-in prototype, so the read finds an own field or
    yields [undefined], and throws on [undefined] and [null]. *)
Definition get (o : value) (k : string) : result value :=
  match o with
  | VUndefined | VNull => Throw TypeError
  | VObject fields =>
      match lookup k fields with
      | Some v => Ok v
      | None => Ok VUndefined
      end
  | _ => Ok VUndefined
  end.

(** [o?.k] *)
Definition get_optional (o : value) (k : string) : result value :=
  match o with
  | VUndefined | VNull => Ok VUndefined
  | _ => get o k
  end.

(** ToBoolean *)
Definition truthy (v : value) : bool :=
  match v with
  | VUndefined | VNull => false
  | VBool b => b
  | VNum n => ToBoolean_number n
  | VString s => negb (String.eqb s "")
  | VArray _ | VObject _ => true
  end.

(** [v === 'literal'] *)
Definition strict_eq_string (v : value) (s : string) : bool :=
  match v with
  | VString s' => String.eqb s' s
  | _ => false
  end.

(** [a || b] on values already computed. *)
Definition or_else (a b : value) : value := if truthy a then a else b.

(** ToString, as a template literal applies it to [${...}].  A plain object
    renders through [Object.prototype.toString]; one that shadows [toString]
    with data has no callable conversion left and the engine throws.  An array
    joins its elements with commas, [null] and [undefined] rendering empty. *)
Fixpoint ToString (v : value) : result string :=
  match v with
  | VUndefined => Ok "undefined"
  | VNull => Ok "null"
  | VBool true => Ok "true"
  | VBool false => Ok "false"
  | VNum n => Ok (ToString_number n)
  | VString s => Ok s
  | VArray items =>
      (fix join (l : list value) : result string :=
         match l with
         | [] => Ok ""
         | x :: rest =>
             match (match x with
                    | VUndefined | VNull => Ok ""
                    | _ => ToString x
                    end) with
             | Throw e => Throw e
             | Ok s =>
                 match rest with
                 | [] => Ok s
                 | _ :: _ =>
                     match join rest with
                     | Throw e => Throw e
                     | Ok r => Ok (s ++ "," ++ r)%string
                     end
                 end
             end
         end) items
  | VObject fields =>
      match lookup "toString" fields with
      | Some _ => Throw TypeError
      | None => Ok "[object Object]"
      end
  end.

(** ** The host *)

(** The four plugin events the script listens to. *)
Inductive event :=
| registration
| registrationError
| pushNotificationReceived
| pushNotificationActionPerformed.

Definition event_eqb (a b : event) : bool :=
  match a, b with
  | registration, registration
  | registrationError, registrationError
  | pushNotificationReceived, pushNotificationReceived
  | pushNotificationActionPerformed, pushNotificationActionPerformed => true
  | _, _ => false
  end.

(** The text [JSON.stringify] produces is not spelled out; a body is the
    value handed to it. *)
Inductive json_text :=
| JSON_stringify (v : value).

(** The arguments of a [fetch] call. *)
Record request := mkRequest {
  url : string;
  method : string;
  headers : list (string * string);
  body : json_text
}.

(** Every call of the script that returns a promise. *)
Inductive awaitable :=
| checkPermissions
| requestPermissions
| register
| addListener (ev : event)
| fetch (req : request).

(** How the host settles a promise. *)
Inductive settle :=
| Resolved (v : value)
| Rejected (e : exn).

Inductive level := log | warn | error.

Inductive arg :=
| AV (v : value)
| AE (e : exn).

(** The interaction log: console lines, promise-returning calls as they are
    made, their settlements as the host delivers them, and exceptions that
    escape a callback to the host. *)
Inductive effect :=
| console (l : level) (args : list arg)
| call (a : awaitable)
| settled (a : awaitable) (s : settle)
| uncaught (e : exn).

(** What the script reads from its surroundings and never writes.  The host
    may answer differently at every step. *)
Record env := mkEnv {
  isNativePlatform : bool;
  localStorage_getItem : string -> result (option string);
  sessionStorage_getItem : string -> result (option string);
  JSON_parse : string -> result value;
  Date_toISOString : string;
  querySelector : string -> bool
}.

(** ** The state the script acts on *)

(** A DOM element, by the properties the script sets on one.  [node] is its
    identity. *)
Record element := mkElement {
  node : nat;
  tagName : string;
  elem_id : string;
  className : string;
  innerHTML : string;
  cssText : string;
  textContent : string
}.

(** The one timer callback of the script, lines 236-240: remove the banner
    if it still has a parent. *)
Inductive timer_callback :=
| remove_if_attached (n : nat).

Record timer := mkTimer {
  callback : timer_callback;
  delay : nat
}.

(** Where an asynchronous method waits: at which [await] (or [.catch]) it
    resumes once its promise settles. *)
Inductive initialize_await :=
| after_checkPermissions                (* line 25 *)
| after_requestPermissions              (* line 28 *)
| after_register                        (* line 37 *)
| after_addListener (ev : event).       (* lines 40, 47, 52, 58 *)

Inductive continuation :=
| initialize_at (a : initialize_await)
| sendTokenToServer_after_fetch         (* line 88 *)
| trackNotificationEvent_catch.         (* line 303 *)

Record suspended := mkSuspended {
  awaited_call : awaitable;
  resume_at : continuation
}.

Record state := mkState {
  isInitialized : bool;            (* this.isInitialized *)
  deviceToken : value;             (* this.deviceToken *)
  location_href : string;          (* window.location.href *)
  next_node : nat;                 (* identity of the next created element *)
  document_head : list element;
  document_body : list element;
  timers : list timer;
  listeners : list event;          (* callbacks handed to the plugin *)
  pending : list suspended;
  trace : list effect
}.

Definition set_isInitialized (b : bool) (s : state) : state :=
  mkState b (deviceToken s) (location_href s) (next_node s) (document_head s)
    (document_body s) (timers s) (listeners s) (pending s) (trace s).

Definition set_deviceToken (v : value) (s : state) : state :=
  mkState (isInitialized s) v (location_href s) (next_node s) (document_head s)
    (document_body s) (timers s) (listeners s) (pending s) (trace s).

Definition set_location_href (u : string) (s : state) : state :=
  mkState (isInitialized s) (deviceToken s) u (next_node s) (document_head s)
    (document_body s) (timers s) (listeners s) (pending s) (trace s).

Definition set_next_node (n : nat) (s : state) : state :=
  mkState (isInitialized s) (deviceToken s) (location_href s) n (document_head s)
    (document_body s) (timers s) (listeners s) (pending s) (trace s).

Definition set_document_head (h : list element) (s : state) : state :=
  mkState (isInitialized s) (deviceToken s) (location_href s) (next_node s) h
    (document_body s) (timers s) (listeners s) (pending s) (trace s).

Definition set_document_body (b : list element) (s : state) : state :=
  mkState (isInitialized s) (deviceToken s) (location_href s) (next_node s)
    (document_head s) b (timers s) (listeners s) (pending s) (trace s).

Definition set_timers (t : list timer) (s : state) : state :=
  mkState (isInitialized s) (deviceToken s) (location_href s) (next_node s)
    (document_head s) (document_body s) t (listeners s) (pending s) (trace s).

Definition set_listeners (l : list event) (s : state) : state :=
  mkState (isInitialized s) (deviceToken s) (location_href s) (next_node s)
    (document_head s) (document_body s) (timers s) l (pending s) (trace s).

Definition set_pending (p : list suspended) (s : state) : state :=
  mkState (isInitialized s) (deviceToken s) (location_href s) (next_node s)
    (document_head s) (document_body s) (timers s) (listeners s) p (trace s).

Definition set_trace (t : list effect) (s : state) : state :=
  mkState (isInitialized s) (deviceToken s) (location_href s) (next_node s)
    (document_head s) (document_body s) (timers s) (listeners s) (pending s) t.

(** ** Computations: environment, state and exceptions *)

Definition M (A : Type) : Type := env -> state -> result A * state.

Definition ret {A} (a : A) : M A := fun _ s => (Ok a, s).

Definition bind {A B} (m : M A) (k : A -> M B) : M B :=
  fun e s =>
    match m e s with
    | (Ok a, s') => k a e s'
    | (Throw x, s') => (Throw x, s')
    end.

Definition throw {A} (x : exn) : M A := fun _ s => (Throw x, s).

(** [try { m } catch (error) { h error }]: the state reached when [m] threw
    is the state the handler starts in. *)
Definition try_catch {A} (m : M A) (h : exn -> M A) : M A :=
  fun e s =>
    match m e s with
    | (Ok a, s') => (Ok a, s')
    | (Throw x, s') => h x e s'
    end.

Definition lift {A} (r : result A) : M A := fun _ s => (r, s).
Definition host {A} (f : env -> result A) : M A := fun e s => (f e, s).
Definition asks {A} (f : env -> A) : M A := fun e s => (Ok (f e), s).
Definition gets {A} (f : state -> A) : M A := fun _ s => (Ok (f s), s).
Definition modify (f : state -> state) : M unit := fun _ s => (Ok tt, f s).

Declare Scope js_scope.
Delimit Scope js_scope with js.
Notation "x <- m ;; k" := (bind m (fun x => k))
  (at level 61, m at next level, right associativity) : js_scope.
Notation "m ;; k" := (bind m (fun _ => k))
  (at level 61, right associativity) : js_scope.
Local Open Scope js_scope.

Definition emit (x : effect) : M unit :=
  modify (fun s => set_trace (trace s ++ [x]) s).

Definition str (s : string) : arg := AV (VString s).
Definition console_log (args : list arg) : M unit := emit (console log args).
Definition console_warn (args : list arg) : M unit := emit (console warn args).
Definition console_error (args : list arg) : M unit := emit (console error args).

(** A promise-returning call: the call goes out now, the rest of the method
    is parked until the host settles it. *)
Definition await (a : awaitable) (k : continuation) : M unit :=
  emit (call a) ;;
  modify (fun s => set_pending (pending s ++ [mkSuspended a k]) s).

(** The value of an [await] expression once the promise has settled. *)
Definition awaited (s : settle) : M value :=
  match s with
  | Resolved v => ret v
  | Rejected x => throw x
  end.

(** ** The script, method by method *)

(** The double-quote character, for the markup below. *)
Definition dq : string := String (ascii_of_nat 34) EmptyString.

(** The template literal of lines 166-175, up to its first hole. *)
Definition banner_open : string :=
  String.concat "" [
    "
            <div class=";
    dq;
    "notification-content";
    dq;
    ">
                <div class=";
    dq;
    "notification-icon";
    dq;
    ">🔔</div>
                <div class=";
    dq;
    "notification-text";
    dq;
    ">
                    <div class=";
    dq;
    "notification-title";
    dq;
    ">"
  ].

(** Between the two holes. *)
Definition banner_middle : string :=
  String.concat "" [
    "</div>
                    <div class=";
    dq;
    "notification-body";
    dq;
    ">"
  ].

(** After the second hole. *)
Definition banner_close : string :=
  String.concat "" [
    "</div>
                </div>
                <div class=";
    dq;
    "notification-close";
    dq;
    " onclick=";
    dq;
    "this.parentElement.parentElement.remove()";
    dq;
    ">×</div>
            </div>
        "
  ].

Definition banner_html (title body : string) : string :=
  (banner_open ++ title ++ banner_middle ++ body ++ banner_close)%string.

(** The template literal of lines 178-190. *)
Definition banner_cssText : string :=
  "
            position: fixed;
            top: 20px;
            left: 20px;
            right: 20px;
            background: linear-gradient(135deg, #4A55A2 0%, #667eea 100%);
            color: white;
            padding: 15px;
            border-radius: 12px;
            box-shadow: 0 4px 20px rgba(0,0,0,0.3);
            z-index: 10000;
            animation: slideDown 0.3s ease-out;
        ".

(** The template literal of lines 196-228. *)
Definition styles_textContent : string :=
  "
                @keyframes slideDown {
                    from { transform: translateY(-100px); opacity: 0; }
                    to { transform: translateY(0); opacity: 1; }
                }
                .notification-content {
                    display: flex;
                    align-items: center;
                    gap: 12px;
                }
                .notification-icon {
                    font-size: 24px;
                }
                .notification-text {
                    flex: 1;
                }
                .notification-title {
                    font-weight: bold;
                    margin-bottom: 4px;
                }
                .notification-body {
                    font-size: 14px;
                    opacity: 0.9;
                }
                .notification-close {
                    font-size: 20px;
                    cursor: pointer;
                    opacity: 0.7;
                }
                .notification-close:hover {
                    opacity: 1;
                }
            ".

(** *** DOM and timer primitives *)

(** [document.createElement(tag)] *)
Definition createElement (tag : string) : M element :=
  n <- gets next_node ;;
  modify (set_next_node (S n)) ;;
  ret (mkElement n tag "" "" "" "" "").

Definition head_appendChild (el : element) : M unit :=
  modify (fun s => set_document_head (document_head s ++ [el]) s).

Definition body_appendChild (el : element) : M unit :=
  modify (fun s => set_document_body (document_body s ++ [el]) s).

Definition setTimeout (cb : timer_callback) (ms : nat) : M unit :=
  modify (fun s => set_timers (timers s ++ [mkTimer cb ms]) s).

Definition attached (n : nat) (s : state) : bool :=
  existsb (fun el => Nat.eqb (node el) n) (document_body s).

(** [el.remove()] for a child of the body. *)
Definition remove_node (n : nat) (s : state) : state :=
  set_document_body
    (filter (fun el => negb (Nat.eqb (node el) n)) (document_body s)) s.

(** Lines 236-240, the body of the arrow function given to [setTimeout]. *)
Definition run_timer (cb : timer_callback) : M unit :=
  match cb with
  | remove_if_attached n =>
      is_attached <- gets (attached n) ;;
      if is_attached then modify (remove_node n) else ret tt
  end.

(** *** getUserInfo, lines 269-283 *)

Definition item_truthy (item : option string) : bool :=
  match item with
  | Some s => negb (String.eqb s "")
  | None => false
  end.

(** The [try] block either returns the parsed record ([Some]) or falls
    through to the default after it ([None]); so does the [catch] block. *)
Definition getUserInfo : M value :=
  returned <-
    try_catch
      (from_local <- host (fun e => localStorage_getItem e "leqoehunt_user") ;;
       userInfo <-
         (if item_truthy from_local then ret from_local
          else host (fun e => sessionStorage_getItem e "leqoehunt_user")) ;;
       match userInfo with
       | Some text =>
           if item_truthy userInfo then
             parsed <- host (fun e => JSON_parse e text) ;;
             ret (Some parsed)
           else ret None
       | None => ret None
       end)
      (fun err =>
         console_warn [str "Could not parse user info:"; AE err] ;;
         ret None) ;;
  match returned with
  | Some parsed => ret parsed
  | None => ret (VObject [("userId", VNull)])
  end.

(** *** sendTokenToServer, lines 74-106 *)

Definition push_token_url : string := "https://leqoehunt.my/api/push-token".

Definition sendTokenToServer_catch (m : M unit) : M unit :=
  try_catch m
    (fun err => console_error [str "Error sending token to server:"; AE err]).

(** Up to the [await fetch(...)] of line 88. *)
Definition sendTokenToServer (token : value) : M unit :=
  sendTokenToServer_catch
    (userInfo <- getUserInfo ;;
     userId <- lift (get userInfo "userId") ;;
     now <- asks Date_toISOString ;;
     let payload :=
       VObject [("device_token", token);
                ("platform", VString "android");
                ("app_version", VString "1.0.0");
                ("user_id", or_else userId VNull);
                ("timestamp", VString now)] in
     await
       (fetch (mkRequest push_token_url "POST"
                 [("Content-Type", "application/json");
                  ("Accept", "application/json")]
                 (JSON_stringify payload)))
       sendTokenToServer_after_fetch).

(** From line 88 on, once the fetch has settled.  A response is the record
    of its [ok] and [status]. *)
Definition sendTokenToServer_resume (s : settle) : M unit :=
  sendTokenToServer_catch
    (response <- awaited s ;;
     ok <- lift (get response "ok") ;;
     if truthy ok then
       console_log [str "✅ Device token registered with LeqoeHunt server"]
     else
       status <- lift (get response "status") ;;
       console_warn [str "Failed to register token with server:"; AV status]).

(** *** trackNotificationEvent, lines 288-309 *)

Definition analytics_url : string :=
  "https://leqoehunt.my/api/notification-analytics".

Definition trackNotificationEvent (action notification : value) : M unit :=
  try_catch
    (data <- lift (get notification "data") ;;
     notification_id <- lift (get_optional data "notification_id") ;;
     data' <- lift (get notification "data") ;;
     ty <- lift (get_optional data' "type") ;;
     now <- asks Date_toISOString ;;
     token <- gets deviceToken ;;
     await
       (fetch (mkRequest analytics_url "POST"
                 [("Content-Type", "application/json")]
                 (JSON_stringify
                    (VObject [("action", action);
                              ("notification_id", notification_id);
                              ("type", ty);
                              ("timestamp", VString now);
                              ("device_token", token)]))))
       trackNotificationEvent_catch)
    (fun err =>
       console_warn [str "Failed to track notification event:"; AE err]).

(** The [.catch] handler of lines 303-305. *)
Definition trackNotificationEvent_resume (s : settle) : M unit :=
  match s with
  | Resolved _ => ret tt
  | Rejected err => console_warn [str "Analytics tracking failed:"; AE err]
  end.

(** *** Navigation helpers, lines 246-264 *)

Definition navigate (target : string) : M unit :=
  modify (set_location_href target).

Definition navigateToKedai (kedaiId : value) : M unit :=
  text <- lift (ToString kedaiId) ;;
  navigate ("https://leqoehunt.my/kedai/" ++ text)%string.

Definition navigateToPhotoHunt (challengeId : value) : M unit :=
  text <- lift (ToString challengeId) ;;
  navigate ("https://leqoehunt.my/photohunt/" ++ text)%string.

Definition navigateToBusinessDashboard : M unit :=
  navigate "https://leqoehunt.my/dashboard".

Definition navigateToPromotion (promoId : value) : M unit :=
  text <- lift (ToString promoId) ;;
  navigate ("https://leqoehunt.my/promo/" ++ text)%string.

Definition navigateToHome : M unit :=
  navigate "https://leqoehunt.my/".

(** *** showInAppNotification, lines 162-241 *)

Definition with_banner (title body : string) (el : element) : element :=
  mkElement (node el) (tagName el) (elem_id el) "leqoehunt-notification"
    (banner_html title body) banner_cssText (textContent el).

Definition with_styles (el : element) : element :=
  mkElement (node el) (tagName el) "leqoehunt-notification-styles"
    (className el) (innerHTML el) (cssText el) styles_textContent.

Definition showInAppNotification (notification : value) : M unit :=
  notificationEl <- createElement "div" ;;
  title <- lift (get notification "title") ;;
  title_text <- lift (ToString title) ;;
  body_ <- lift (get notification "body") ;;
  body_text <- lift (ToString body_) ;;
  let notificationEl := with_banner title_text body_text notificationEl in
  found <- asks (fun e => querySelector e "#leqoehunt-notification-styles") ;;
  (if negb found then
     styles <- createElement "style" ;;
     head_appendChild (with_styles styles)
   else ret tt) ;;
  body_appendChild notificationEl ;;
  setTimeout (remove_if_attached (node notificationEl)) 5000.

(** *** handleNotificationReceived, lines 111-121 *)

Definition handleNotificationReceived (notification : value) : M unit :=
  title <- lift (get notification "title") ;;
  body_ <- lift (get notification "body") ;;
  data <- lift (get notification "data") ;;
  showInAppNotification
    (VObject [("title", title); ("body", body_); ("data", data)]) ;;
  trackNotificationEvent (VString "received") notification.

(** *** handleNotificationTapped, lines 126-157 *)

Definition handleNotificationTapped (notification : value) : M unit :=
  inner <- lift (get notification "notification") ;;
  data <- lift (get inner "data") ;;
  ty <- lift (get data "type") ;;
  (if truthy ty then
     ty <- lift (get data "type") ;;
     if strict_eq_string ty "kedai_verification" then
       kedai_id <- lift (get data "kedai_id") ;;
       navigateToKedai kedai_id
     else if strict_eq_string ty "photohunt_challenge" then
       challenge_id <- lift (get data "challenge_id") ;;
       navigateToPhotoHunt challenge_id
     else if strict_eq_string ty "business_update" then
       navigateToBusinessDashboard
     else if strict_eq_string ty "promotional" then
       promo_id <- lift (get data "promo_id") ;;
       navigateToPromotion promo_id
     else navigateToHome
   else navigateToHome) ;;
  inner' <- lift (get notification "notification") ;;
  trackNotificationEvent (VString "opened") inner'.

(** *** initialize, lines 16-69 *)

Definition initialize_catch (m : M unit) : M unit :=
  try_catch m
    (fun err =>
       console_error [str "Failed to initialize push notifications:"; AE err]).

(** [await PushNotifications.addListener(ev, callback)]: the callback is in
    the plugin's hands from the call on. *)
Definition PushNotifications_addListener (ev : event) : M unit :=
  modify (fun s => set_listeners (listeners s ++ [ev]) s) ;;
  await (addListener ev) (initialize_at (after_addListener ev)).

(** Lines 31-37: the permission test and the call of [register]. *)
Definition initialize_with_permission (permStatus : value) : M unit :=
  receive <- lift (get permStatus "receive") ;;
  if negb (strict_eq_string receive "granted") then
    console_warn [str "Push notification permission denied"]
  else await register (initialize_at after_register).

(** Lines 16-25, up to the first [await]. *)
Definition initialize : M unit :=
  native <- asks isNativePlatform ;;
  if negb native then
    console_log [str "Push notifications not available on web platform"]
  else
    initialize_catch
      (await checkPermissions (initialize_at after_checkPermissions)).

(** Lines 63-64. *)
Definition initialize_finish : M unit :=
  modify (set_isInitialized true) ;;
  console_log [str "✅ LeqoeHunt Push Notifications initialized successfully"].

(** The rest of [initialize], from the [await] it was parked at. *)
Definition initialize_resume (k : initialize_await) (s : settle) : M unit :=
  initialize_catch
    (match k with
     | after_checkPermissions =>
         permStatus <- awaited s ;;
         receive <- lift (get permStatus "receive") ;;
         if strict_eq_string receive "prompt" then
           await requestPermissions (initialize_at after_requestPermissions)
         else initialize_with_permission permStatus
     | after_requestPermissions =>
         permStatus <- awaited s ;;
         initialize_with_permission permStatus
     | after_register =>
         awaited s ;;
         PushNotifications_addListener registration
     | after_addListener registration =>
         awaited s ;;
         PushNotifications_addListener registrationError
     | after_addListener registrationError =>
         awaited s ;;
         PushNotifications_addListener pushNotificationReceived
     | after_addListener pushNotificationReceived =>
         awaited s ;;
         PushNotifications_addListener pushNotificationActionPerformed
     | after_addListener pushNotificationActionPerformed =>
         awaited s ;;
         initialize_finish
     end).

(** The four arrow functions of lines 40-61. *)
Definition listener (ev : event) (payload : value) : M unit :=
  match ev with
  | registration =>
      let token := payload in
      value_ <- lift (get token "value") ;;
      console_log [str "Push registration success, token: "; AV value_] ;;
      value_ <- lift (get token "value") ;;
      modify (set_deviceToken value_) ;;
      value_ <- lift (get token "value") ;;
      sendTokenToServer value_
  | registrationError =>
      reason <- lift (get payload "error") ;;
      console_error [str "Registration error: "; AV reason]
  | pushNotificationReceived =>
      console_log [str "Push notification received: "; AV payload] ;;
      handleNotificationReceived payload
  | pushNotificationActionPerformed =>
      console_log [str "Push notification action performed"; AV payload] ;;
      handleNotificationTapped payload
  end.

(** Lines 314-323. *)
Definition getDeviceToken : M value := gets deviceToken.
Definition isReady : M bool := gets isInitialized.

(** The constructor, lines 10-14. *)
Definition constructor : M unit :=
  modify (set_isInitialized false) ;;
  modify (set_deviceToken VNull) ;;
  initialize.

(** The module body, lines 327-332. *)
Definition module_body : M unit :=
  constructor ;;
  console_log [str "🔔 LeqoeHunt Push Notifications module loaded"].

(** ** The event loop *)

(** Resuming a parked method. *)
Definition resume (k : continuation) (s : settle) : M unit :=
  match k with
  | initialize_at a => initialize_resume a s
  | sendTokenToServer_after_fetch => sendTokenToServer_resume s
  | trackNotificationEvent_catch => trackNotificationEvent_resume s
  end.

(** A call of a method on the exported object
    [window.LeqoeHuntNotifications] by any other script. *)
Inductive invocation :=
| call_initialize
| call_sendTokenToServer (token : value)
| call_handleNotificationReceived (notification : value)
| call_handleNotificationTapped (notification : value)
| call_showInAppNotification (notification : value)
| call_navigateToKedai (kedaiId : value)
| call_navigateToPhotoHunt (challengeId : value)
| call_navigateToBusinessDashboard
| call_navigateToPromotion (promoId : value)
| call_navigateToHome
| call_getUserInfo
| call_trackNotificationEvent (action notification : value)
| call_getDeviceToken
| call_isReady.

Definition discard {A} (m : M A) : M unit := m ;; ret tt.

Definition invoke (c : invocation) : M unit :=
  match c with
  | call_initialize => initialize
  | call_sendTokenToServer token => sendTokenToServer token
  | call_handleNotificationReceived n => handleNotificationReceived n
  | call_handleNotificationTapped n => handleNotificationTapped n
  | call_showInAppNotification n => showInAppNotification n
  | call_navigateToKedai v => navigateToKedai v
  | call_navigateToPhotoHunt v => navigateToPhotoHunt v
  | call_navigateToBusinessDashboard => navigateToBusinessDashboard
  | call_navigateToPromotion v => navigateToPromotion v
  | call_navigateToHome => navigateToHome
  | call_getUserInfo => discard getUserInfo
  | call_trackNotificationEvent a n => trackNotificationEvent a n
  | call_getDeviceToken => discard getDeviceToken
  | call_isReady => discard isReady
  end.

(** What the host can do to the page between two runs of script code. *)
Inductive label :=
| Settle (n : nat) (s : settle)          (* settle the n-th pending promise *)
| Deliver (ev : event) (payload : value)  (* fire a plugin event at every callback *)
| Fire (n : nat)                          (* let the n-th timer expire *)
| Dismiss (n : nat)                       (* click the close control of plain banner n *)
| Invoke (c : invocation).

Fixpoint remove_nth {A} (n : nat) (l : list A) : list A :=
  match n, l with
  | _, [] => []
  | O, _ :: rest => rest
  | S n', x :: rest => x :: remove_nth n' rest
  end.

(** The state a run of script code leaves; an exception nobody caught is
    reported by the host and changes nothing else. *)
Definition finish (r : result unit * state) : state :=
  match r with
  | (Ok _, s) => s
  | (Throw x, s) => set_trace (trace s ++ [uncaught x]) s
  end.

(** The plugin holds a callback for [ev]. *)
Definition listening (ev : event) (s : state) : bool :=
  existsb (event_eqb ev) (listeners s).

(** How many callbacks it holds for [ev]: one for every [addListener] call. *)
Definition callbacks (ev : event) (s : state) : nat :=
  length (filter (event_eqb ev) (listeners s)).

(** The plugin calls each callback it holds, one after the other and each
    in a dispatch of its own: an exception of one is reported and the next
    one still runs. *)
Fixpoint dispatch (k : nat) (m : M unit) (e : env) (s : state) : state :=
  match k with
  | O => s
  | S k' => dispatch k' m e (finish (m e s))
  end.

Fixpoint strip_prefix (prefix s : string) : option string :=
  match prefix, s with
  | EmptyString, _ => Some s
  | String a prefix', String b s' =>
      if Ascii.eqb a b then strip_prefix prefix' s' else None
  | String _ _, EmptyString => None
  end.

(** What is left of [s] from its first [<] on. *)
Fixpoint from_next_tag (s : string) : string :=
  match s with
  | EmptyString => EmptyString
  | String c s' => if Ascii.eqb c "<" then s else from_next_tag s'
  end.

(** The markup is the template of lines 166-175 around a title and a body
    that hold no [<]: nothing in it but the tags of the template, so the
    parser nests the elements as the template writes them and the close
    control is a grandchild of the banner. *)
Definition plain_banner (html : string) : bool :=
  match strip_prefix banner_open html with
  | Some after_open =>
      match strip_prefix banner_middle (from_next_tag after_open) with
      | Some after_middle => String.eqb (from_next_tag after_middle) banner_close
      | None => false
      end
  | None => false
  end.

(** The close control of banner [n] can be clicked with the effect the
    inline handler of line 173 is written for: the banner is in the body
    and its markup is plain.  With markup of its own in title or body the
    grandparent of the control may be another element; such a click is left
    out of the model. *)
Definition dismissible (n : nat) (s : state) : bool :=
  attached n s &&
  forallb (fun el => implb (Nat.eqb (node el) n) (plain_banner (innerHTML el)))
    (document_body s).

(** One step of the host, [None] when the step is not possible. *)
Definition step (e : env) (l : label) (s : state) : option state :=
  match l with
  | Settle n outcome =>
      match nth_error (pending s) n with
      | None => None
      | Some p =>
          let s1 := set_pending (remove_nth n (pending s)) s in
          let s2 := set_trace (trace s1 ++ [settled (awaited_call p) outcome]) s1 in
          Some (finish (resume (resume_at p) outcome e s2))
      end
  | Deliver ev payload =>
      if listening ev s then
        Some (dispatch (callbacks ev s) (listener ev payload) e s)
      else None
  | Fire n =>
      match nth_error (timers s) n with
      | None => None
      | Some t =>
          Some (finish (run_timer (callback t) e
                          (set_timers (remove_nth n (timers s)) s)))
      end
  | Dismiss n =>
      if dismissible n s then Some (remove_node n s) else None
  | Invoke c => Some (finish (invoke c e s))
  end.

(** A run of the host: each step under the environment of its moment. *)
Fixpoint run (steps : list (env * label)) (s : state) : option state :=
  match steps with
  | [] => Some s
  | (e, l) :: rest =>
      match step e l s with
      | None => None
      | Some s' => run rest s'
      end
  end.

(** The page before the script is evaluated. *)
Definition page (href : string) : state :=
  mkState false VUndefined href 0 [] [] [] [] [] [].

(** The page once the module body has run. *)
Definition loaded (e : env) (href : string) : state :=
  finish (module_body e (page href)).

(** * Properties *)

Arguments get : simpl never.
Arguments get_optional : simpl never.
Arguments ToString : simpl never.
Arguments String.append : simpl never.
Arguments banner_html : simpl never.

(** Adding to the interaction log and to the parked continuations. *)
Definition emitting (tr : list effect) (s : state) : state :=
  set_trace (trace s ++ tr) s.

Definition parking (ps : list suspended) (s : state) : state :=
  set_pending (pending s ++ ps) s.

(** A member of the JSON text of a body: [JSON.stringify] leaves out the
    members whose value is [undefined]. *)
Definition json_member (k : string) (b : json_text) : option value :=
  match b with
  | JSON_stringify (VObject fields) =>
      lookup k (filter (fun kv => match snd kv with
                                  | VUndefined => false
                                  | _ => true
                                  end) fields)
  | JSON_stringify _ => None
  end.

Definition contains (sub s : string) : Prop :=
  exists before after, s = (before ++ sub ++ after)%string.

(** ** Reading properties *)

Lemma get_optional_total (o : value) (k : string) :
  exists v, get_optional o k = Ok v.
Proof.
  destruct o; unfold get_optional, get; try (eexists; reflexivity).
  destruct (lookup k fields); eexists; reflexivity.
Qed.


Lemma strict_eq_string_true (v : value) (s : string) :
  strict_eq_string v s = true <-> v = VString s.
Proof.
  destruct v; simpl; split; intros H; try discriminate.
  - apply String.eqb_eq in H. now subst.
  - injection H as ->. apply String.eqb_refl.
Qed.

Lemma strict_eq_string_false (v : value) (s : string) :
  v <> VString s -> strict_eq_string v s = false.
Proof.
  intros H. destruct (strict_eq_string v s) eqn:E; [|reflexivity].
  apply strict_eq_string_true in E. contradiction.
Qed.

Lemma append_assoc (a b c : string) :
  ((a ++ b) ++ c = a ++ b ++ c)%string.
Proof.
  induction a as [|ch a IH]; [reflexivity|].
  change (String ch ((a ++ b) ++ c) = String ch (a ++ b ++ c))%string.
  now rewrite IH.
Qed.

(** The three templates have the lengths, in bytes, of the literals in the
    script. *)
Example template_lengths :
  String.length (banner_html "" "") = 430 /\
  String.length banner_cssText = 399 /\
  String.length styles_textContent = 1067.
Proof. repeat split. Qed.

Example ToString_examples :
  ToString (VString "42") = Ok "42" /\
  ToString VUndefined = Ok "undefined" /\
  ToString (VArray [VString "a"; VNull; VBool true]) = Ok "a,,true" /\
  ToString (VObject [("kedai", VString "42")]) = Ok "[object Object]" /\
  ToString (VObject [("toString", VString "42")]) = Throw TypeError.
Proof. repeat split. Qed.

Lemma banner_html_contains_title (title body : string) :
  contains title (banner_html title body).
Proof.
  exists banner_open, (banner_middle ++ body ++ banner_close)%string.
  reflexivity.
Qed.

Lemma banner_html_contains_body (title body : string) :
  contains body (banner_html title body).
Proof.
  exists (banner_open ++ title ++ banner_middle)%string, banner_close.
  unfold banner_html. now rewrite !append_assoc.
Qed.

(** ** Analytics *)

Definition analytics_request
    (action notification_id ty : value) (now : string) (token : value)
    : request :=
  mkRequest analytics_url "POST" [("Content-Type", "application/json")]
    (JSON_stringify
       (VObject [("action", action);
                 ("notification_id", notification_id);
                 ("type", ty);
                 ("timestamp", VString now);
                 ("device_token", token)])).

(** The state after one more [fetch] whose rejection handler is parked. *)
Definition tracking (req : request) (s : state) : state :=
  parking [mkSuspended (fetch req) trackNotificationEvent_catch]
    (emitting [call (fetch req)] s).

Ltac reads :=
  repeat match goal with
         | H : get ?o ?k = _ |- context [get ?o ?k] => rewrite H
         | H : get_optional ?o ?k = _ |- context [get_optional ?o ?k] => rewrite H
         end.

(** On a notification that carries a [data] member, defined or not, the
    tracker issues exactly one analytics request and reports nothing. *)
Lemma trackNotificationEvent_fires
    (action n data : value) (e : env) (s : state) :
  get n "data" = Ok data ->
  exists notification_id ty,
    get_optional data "notification_id" = Ok notification_id /\
    get_optional data "type" = Ok ty /\
    trackNotificationEvent action n e s =
      (Ok tt,
       tracking (analytics_request action notification_id ty
                   (Date_toISOString e) (deviceToken s)) s).
Proof.
  intros Hdata.
  destruct (get_optional_total data "notification_id") as [nid Hnid].
  destruct (get_optional_total data "type") as [ty Hty].
  exists nid, ty. repeat split; try assumption.
  unfold trackNotificationEvent, try_catch, bind, lift. reads. reflexivity.
Qed.

(** ** Example hosts and pages *)

(** The text [{"userId":"u7"}]. *)
Definition user_u7_text : string :=
  String.concat "" ["{"; dq; "userId"; dq; ":"; dq; "u7"; dq; "}"].

(** [JSON.parse] on the texts the examples keep in storage. *)
Definition JSON_parse_examples (text : string) : result value :=
  if String.eqb text "null" then Ok VNull
  else if String.eqb text user_u7_text then Ok (VObject [("userId", VString "u7")])
  else Throw SyntaxError.

Definition android_host (stored : option string) : env :=
  mkEnv true (fun _ => Ok stored) (fun _ => Ok None) JSON_parse_examples
    "2024-05-01T08:00:00.000Z" (fun _ => false).

Definition browser_host : env :=
  mkEnv false (fun _ => Ok None) (fun _ => Ok None) JSON_parse_examples
    "2024-05-01T08:00:00.000Z" (fun _ => false).

Definition app_href : string := "https://leqoehunt.my/app".

Definition permission (receive : string) : value :=
  VObject [("receive", VString receive)].

Definition handle : value := VObject [].

(** ** C10: a tap without a data object *)

(** C10.  When the tapped payload has no data object
    ([notification.notification.data] is [undefined]), reading [data.type]
    throws a TypeError out of [handleNotificationTapped]: the state is left
    as it was, so nothing was navigated to and no analytics request went
    out; the listener that called it has only written its console line. *)
Theorem handleNotificationTapped_without_data
    (e : env) (s : state) (n inner : value) :
  get n "notification" = Ok inner ->
  get inner "data" = Ok VUndefined ->
  handleNotificationTapped n e s = (Throw TypeError, s) /\
  listener pushNotificationActionPerformed n e s =
    (Throw TypeError,
     emitting [console log [str "Push notification action performed"; AV n]] s).
Proof.
  intros Hinner Hdata.
  assert (Htap : forall s0, handleNotificationTapped n e s0 = (Throw TypeError, s0)).
  { intros s0. unfold handleNotificationTapped, bind, lift. reads. reflexivity. }
  split; [apply Htap|].
  unfold listener, bind, console_log, emit, modify. rewrite Htap. reflexivity.
Qed.

Definition tap_without_data : value :=
  VObject [("actionId", VString "tap");
           ("notification", VObject [("id", VString "n1")])].

Lemma handleNotificationTapped_without_data_witness :
  handleNotificationTapped tap_without_data (android_host None) (page app_href) =
    (Throw TypeError, page app_href) /\
  listener pushNotificationActionPerformed tap_without_data
      (android_host None) (page app_href) =
    (Throw TypeError,
     emitting [console log [str "Push notification action performed";
                            AV tap_without_data]] (page app_href)).
Proof.
  apply (handleNotificationTapped_without_data (android_host None)
           (page app_href) tap_without_data (VObject [("id", VString "n1")]));
    reflexivity.
Defined.

(** ** C5: a tap on a kedai verification *)

(** C5.  A tapped notification whose data has type [kedai_verification] and
    [kedai_id] the string 42 sets the location to the kedai page of 42 and
    issues exactly one analytics request, a POST whose action is [opened];
    nothing else changes and nothing is thrown. *)
Theorem handleNotificationTapped_kedai_verification
    (e : env) (s : state) (n inner data : value) :
  get n "notification" = Ok inner ->
  get inner "data" = Ok data ->
  get data "type" = Ok (VString "kedai_verification") ->
  get data "kedai_id" = Ok (VString "42") ->
  exists req,
    handleNotificationTapped n e s =
      (Ok tt, tracking req (set_location_href "https://leqoehunt.my/kedai/42" s)) /\
    location_href (snd (handleNotificationTapped n e s)) =
      "https://leqoehunt.my/kedai/42" /\
    trace (snd (handleNotificationTapped n e s)) = trace s ++ [call (fetch req)] /\
    url req = "https://leqoehunt.my/api/notification-analytics" /\
    method req = "POST" /\
    json_member "action" (body req) = Some (VString "opened").
Proof.
  intros Hinner Hdata Hty Hid.
  destruct (trackNotificationEvent_fires (VString "opened") inner data e
              (set_location_href "https://leqoehunt.my/kedai/42" s) Hdata)
    as (nid & ty & _ & _ & Htrack).
  assert (Hrun : handleNotificationTapped n e s =
                 (Ok tt,
                  tracking (analytics_request (VString "opened") nid ty
                              (Date_toISOString e) (deviceToken s))
                    (set_location_href "https://leqoehunt.my/kedai/42" s))).
  { unfold handleNotificationTapped, bind, lift. reads. cbn.
    unfold navigateToKedai, bind, lift, navigate, modify. cbn.
    reads. exact Htrack. }
  eexists. split; [exact Hrun|]. rewrite Hrun. repeat split.
Qed.

Definition kedai_42_data : value :=
  VObject [("type", VString "kedai_verification"); ("kedai_id", VString "42")].

Definition kedai_42_notification : value :=
  VObject [("id", VString "n1"); ("data", kedai_42_data)].

Definition tap_kedai_42 : value :=
  VObject [("actionId", VString "tap"); ("notification", kedai_42_notification)].

Lemma handleNotificationTapped_kedai_verification_witness :
  exists req,
    handleNotificationTapped tap_kedai_42 (android_host None) (page app_href) =
      (Ok tt,
       tracking req
         (set_location_href "https://leqoehunt.my/kedai/42" (page app_href))) /\
    location_href
      (snd (handleNotificationTapped tap_kedai_42 (android_host None)
              (page app_href))) = "https://leqoehunt.my/kedai/42" /\
    trace (snd (handleNotificationTapped tap_kedai_42 (android_host None)
                  (page app_href))) =
      trace (page app_href) ++ [call (fetch req)] /\
    url req = "https://leqoehunt.my/api/notification-analytics" /\
    method req = "POST" /\
    json_member "action" (body req) = Some (VString "opened").
Proof.
  apply (handleNotificationTapped_kedai_verification (android_host None)
           (page app_href) tap_kedai_42 kedai_42_notification kedai_42_data);
    reflexivity.
Defined.

(** ** C6: a tap of no recognised type *)

(** The fallback as the script has it, for a payload that carries a data
    object: when its [type] is missing or is none of [kedai_verification],
    [photohunt_challenge], [business_update] and [promotional], the handler
    sets the location to the home page, returns normally and writes no
    console line; the only other effect is the one analytics request of
    every tap. *)
Lemma handleNotificationTapped_fallback_home
    (e : env) (s : state) (n inner data ty : value) :
  get n "notification" = Ok inner ->
  get inner "data" = Ok data ->
  get data "type" = Ok ty ->
  ty <> VString "kedai_verification" ->
  ty <> VString "photohunt_challenge" ->
  ty <> VString "business_update" ->
  ty <> VString "promotional" ->
  exists req,
    handleNotificationTapped n e s =
      (Ok tt, tracking req (set_location_href "https://leqoehunt.my/" s)) /\
    location_href (snd (handleNotificationTapped n e s)) =
      "https://leqoehunt.my/" /\
    trace (snd (handleNotificationTapped n e s)) = trace s ++ [call (fetch req)] /\
    url req = "https://leqoehunt.my/api/notification-analytics".
Proof.
  intros Hinner Hdata Hty H1 H2 H3 H4.
  apply strict_eq_string_false in H1, H2, H3, H4.
  destruct (trackNotificationEvent_fires (VString "opened") inner data e
              (set_location_href "https://leqoehunt.my/" s) Hdata)
    as (nid & ty' & _ & _ & Htrack).
  assert (Hrun : handleNotificationTapped n e s =
                 (Ok tt,
                  tracking (analytics_request (VString "opened") nid ty'
                              (Date_toISOString e) (deviceToken s))
                    (set_location_href "https://leqoehunt.my/" s))).
  { unfold handleNotificationTapped, bind, lift. reads.
    destruct (truthy ty); reads; rewrite ?H1, ?H2, ?H3, ?H4;
      unfold navigateToHome, navigate, modify; reads; exact Htrack. }
  eexists. split; [exact Hrun|]. rewrite Hrun. repeat split.
Qed.

Definition tap_untyped : value :=
  VObject [("notification", VObject [("data", VObject [])])].

Definition tap_unknown_type : value :=
  VObject [("notification",
            VObject [("data", VObject [("type", VString "newsletter")])])].

Definition home_after_tap (n : value) : Prop :=
  exists req,
    handleNotificationTapped n (android_host None) (page app_href) =
      (Ok tt, tracking req (set_location_href "https://leqoehunt.my/" (page app_href))) /\
    location_href
      (snd (handleNotificationTapped n (android_host None) (page app_href))) =
      "https://leqoehunt.my/" /\
    trace (snd (handleNotificationTapped n (android_host None) (page app_href))) =
      trace (page app_href) ++ [call (fetch req)] /\
    url req = "https://leqoehunt.my/api/notification-analytics".

Example home_after_untyped_tap :
  home_after_tap tap_untyped /\ home_after_tap tap_unknown_type.
Proof.
  split.
  - apply (handleNotificationTapped_fallback_home (android_host None)
             (page app_href) tap_untyped
             (VObject [("data", VObject [])]) (VObject []) VUndefined);
      try reflexivity; discriminate.
  - apply (handleNotificationTapped_fallback_home (android_host None)
             (page app_href) tap_unknown_type
             (VObject [("data", VObject [("type", VString "newsletter")])])
             (VObject [("type", VString "newsletter")])
             (VString "newsletter"));
      try reflexivity; discriminate.
Qed.

Definition tap_notice (n : value) : effect :=
  console log [str "Push notification action performed"; AV n].

(** C6, where the script departs from it.  A tapped notification that has
    no data object has no [type] either, yet it is not taken to the home
    page: the read of [data.type] in line 130 is unguarded (the tracker reads
    the same member as [notification.data?.type]), so the handler throws a
    TypeError before any navigation, the location stays what it was, and the
    host is left with an uncaught exception of the listener. *)
Theorem handleNotificationTapped_no_data_no_home
    (e : env) (s : state) (n inner data : value) :
  get n "notification" = Ok inner ->
  get inner "data" = Ok data ->
  data = VUndefined \/ data = VNull ->
  handleNotificationTapped n e s = (Throw TypeError, s) /\
  location_href (snd (handleNotificationTapped n e s)) = location_href s /\
  finish (listener pushNotificationActionPerformed n e s) =
    emitting [uncaught TypeError] (emitting [tap_notice n] s).
Proof.
  intros Hinner Hdata Hnullish.
  assert (Htap : forall s0, handleNotificationTapped n e s0 = (Throw TypeError, s0)).
  { intros s0. unfold handleNotificationTapped, bind, lift. reads.
    destruct Hnullish; subst data; reflexivity. }
  split; [apply Htap|]. split; [now rewrite Htap|].
  unfold listener, bind, console_log, emit, modify. now rewrite Htap.
Qed.

Lemma handleNotificationTapped_no_data_no_home_witness :
  handleNotificationTapped tap_without_data (android_host None) (page app_href) =
    (Throw TypeError, page app_href) /\
  location_href
    (snd (handleNotificationTapped tap_without_data (android_host None)
            (page app_href))) = location_href (page app_href) /\
  finish (listener pushNotificationActionPerformed tap_without_data
            (android_host None) (page app_href)) =
    emitting [uncaught TypeError]
      (emitting [tap_notice tap_without_data] (page app_href)).
Proof.
  apply (handleNotificationTapped_no_data_no_home (android_host None)
           (page app_href) tap_without_data (VObject [("id", VString "n1")])
           VUndefined); [reflexivity | reflexivity | now left].
Defined.

(** ** C7: a notification received in the foreground *)

Definition banner_element (n : nat) (title body : string) : element :=
  mkElement n "div" "" "leqoehunt-notification" (banner_html title body)
    banner_cssText "".

Definition styles_element (n : nat) : element :=
  mkElement n "style" "leqoehunt-notification-styles" "" "" ""
    styles_textContent.

(** The page after [showInAppNotification]: the style sheet goes into the
    head when the query did not find it, the banner goes into the body and
    its removal is scheduled. *)
Definition shown (found : bool) (title body : string) (s : state) : state :=
  let n := next_node s in
  let s1 :=
    if found then set_next_node (S n) s
    else set_document_head (document_head s ++ [styles_element (S n)])
           (set_next_node (S (S n)) s) in
  set_timers (timers s ++ [mkTimer (remove_if_attached n) 5000])
    (set_document_body (document_body s ++ [banner_element n title body]) s1).

Lemma showInAppNotification_shows
    (e : env) (s : state) (notification : value) (title body : string) :
  get notification "title" = Ok (VString title) ->
  get notification "body" = Ok (VString body) ->
  showInAppNotification notification e s =
    (Ok tt,
     shown (querySelector e "#leqoehunt-notification-styles") title body s).
Proof.
  intros Ht Hb.
  unfold showInAppNotification, shown, bind, lift, asks, createElement, gets,
    modify, ret. reads. cbn.
  destruct (querySelector e "#leqoehunt-notification-styles"); reflexivity.
Qed.

Lemma attached_remove_node (n : nat) (s : state) :
  attached n (remove_node n s) = false.
Proof.
  unfold attached, remove_node. cbn.
  induction (document_body s) as [|el rest IH]; [reflexivity|].
  cbn. destruct (Nat.eqb (node el) n) eqn:E; cbn; [exact IH|].
  now rewrite E.
Qed.

Lemma run_timer_detaches (n : nat) (e : env) (s : state) :
  attached n (finish (run_timer (remove_if_attached n) e s)) = false.
Proof.
  unfold run_timer, bind, gets, modify, ret.
  destruct (attached n s) eqn:E; cbn [finish].
  - apply attached_remove_node.
  - exact E.
Qed.

Lemma nth_error_last {A} (l : list A) (x : A) :
  nth_error (l ++ [x]) (length l) = Some x.
Proof.
  rewrite nth_error_app2 by lia. now rewrite Nat.sub_diag.
Qed.

(** What the handler does with a title [t] and a body [b]: it puts one new
    element into the document body, assigns it markup text that holds both
    strings as they are, schedules one timer of 5000 ms that removes this
    element, and issues exactly one analytics request, a POST whose action is
    [received].  When that timer expires the element is no longer in the
    body.  For a title and a body without markup of their own the browser
    shows that text as written. *)
Lemma handleNotificationReceived_banner
    (e : env) (s : state) (n : value) (t b : string) :
  get n "title" = Ok (VString t) ->
  get n "body" = Ok (VString b) ->
  exists el req s',
    handleNotificationReceived n e s = (Ok tt, s') /\
    document_body s' = document_body s ++ [el] /\
    attached (node el) s' = true /\
    innerHTML el = banner_html t b /\
    contains t (innerHTML el) /\
    contains b (innerHTML el) /\
    timers s' = timers s ++ [mkTimer (remove_if_attached (node el)) 5000] /\
    trace s' = trace s ++ [call (fetch req)] /\
    pending s' =
      pending s ++ [mkSuspended (fetch req) trackNotificationEvent_catch] /\
    url req = "https://leqoehunt.my/api/notification-analytics" /\
    method req = "POST" /\
    json_member "action" (body req) = Some (VString "received") /\
    (forall e', exists s'',
        step e' (Fire (length (timers s))) s' = Some s'' /\
        attached (node el) s'' = false).
Proof.
  intros Ht Hb.
  assert (Hd : exists data, get n "data" = Ok data).
  { destruct n; try discriminate. unfold get.
    destruct (lookup "data" fields); eexists; reflexivity. }
  destruct Hd as [data Hd].
  set (found := querySelector e "#leqoehunt-notification-styles").
  destruct (trackNotificationEvent_fires (VString "received") n data e
              (shown found t b s) Hd) as (nid & ty & _ & _ & Htrack).
  exists (banner_element (next_node s) t b).
  eexists. eexists. split.
  { unfold handleNotificationReceived, bind, lift. reads.
    rewrite (showInAppNotification_shows e s _ t b) by reflexivity.
    exact Htrack. }
  repeat match goal with |- _ /\ _ => split end;
    try reflexivity;
    try (unfold shown; destruct found; reflexivity).
  - unfold attached, shown. cbn. rewrite existsb_app. cbn.
    rewrite Nat.eqb_refl. now rewrite orb_true_r.
  - apply banner_html_contains_title.
  - apply banner_html_contains_body.
  - intros e'. eexists. split.
    + unfold step. cbn [timers tracking parking emitting shown set_timers
        set_pending set_trace set_document_body].
      rewrite nth_error_last. reflexivity.
    + apply run_timer_detaches.
Qed.

Definition hi_there : value :=
  VObject [("id", VString "n7");
           ("title", VString "Hi");
           ("body", VString "There");
           ("data", VObject [("type", VString "promotional")])].

Definition banner_shown (e : env) (s : state) (n : value) (t b : string) : Prop :=
  exists el req s',
    handleNotificationReceived n e s = (Ok tt, s') /\
    document_body s' = document_body s ++ [el] /\
    attached (node el) s' = true /\
    innerHTML el = banner_html t b /\
    contains t (innerHTML el) /\
    contains b (innerHTML el) /\
    timers s' = timers s ++ [mkTimer (remove_if_attached (node el)) 5000] /\
    trace s' = trace s ++ [call (fetch req)] /\
    pending s' =
      pending s ++ [mkSuspended (fetch req) trackNotificationEvent_catch] /\
    url req = "https://leqoehunt.my/api/notification-analytics" /\
    method req = "POST" /\
    json_member "action" (body req) = Some (VString "received") /\
    (forall e', exists s'',
        step e' (Fire (length (timers s))) s' = Some s'' /\
        attached (node el) s'' = false).

Example banner_shown_Hi_There :
  banner_shown (android_host None) (page app_href) hi_there "Hi" "There".
Proof.
  apply (handleNotificationReceived_banner (android_host None) (page app_href)
           hi_there "Hi" "There"); reflexivity.
Qed.

(** The start tag of the title element in the template, and the template up
    to it. *)
Definition title_start_tag : string :=
  String.concat "" ["<div class="; dq; "notification-title"; dq; ">"].

Definition banner_before_title : string :=
  Eval vm_compute in
    substring 0 (String.length banner_open - String.length title_start_tag)
      banner_open.

Lemma banner_open_ends_in_title_tag :
  banner_open = (banner_before_title ++ title_start_tag)%string.
Proof. vm_compute. reflexivity. Qed.

(** C7, where the script departs from it.  Title and body are written into
    the markup unescaped (lines 170-171), so a title that is itself markup is
    parsed, not shown.  For the title made of two end tags the assigned text
    has the end tag of the title element directly after its start tag: the
    title element is empty, the banner holds no text of the title, and the
    rest of the template is nested otherwise than written. *)
Theorem handleNotificationReceived_markup_title
    (e : env) (s : state) (n : value) (b : string) :
  get n "title" = Ok (VString "</div></div>") ->
  get n "body" = Ok (VString b) ->
  exists el,
    document_body (snd (handleNotificationReceived n e s)) =
      document_body s ++ [el] /\
    innerHTML el =
      (banner_open ++ "</div></div>" ++ banner_middle ++ b ++ banner_close)%string /\
    innerHTML el =
      (banner_before_title ++ (title_start_tag ++ "</div>") ++
       "</div>" ++ banner_middle ++ b ++ banner_close)%string /\
    plain_banner (innerHTML el) = false.
Proof.
  intros Ht Hb.
  destruct (handleNotificationReceived_banner e s n "</div></div>" b Ht Hb)
    as (el & req & s' & Hrun & Hbody & _ & Hhtml & _).
  exists el. rewrite Hrun. cbn [snd]. split; [exact Hbody|].
  rewrite Hhtml. unfold banner_html. split; [reflexivity|]. split.
  - rewrite banner_open_ends_in_title_tag at 1. now rewrite !append_assoc.
  - vm_compute. reflexivity.
Qed.

Definition markup_title : value :=
  VObject [("title", VString "</div></div>"); ("body", VString "There")].

Lemma handleNotificationReceived_markup_title_witness :
  exists el,
    document_body
      (snd (handleNotificationReceived markup_title (android_host None)
              (page app_href))) = document_body (page app_href) ++ [el] /\
    innerHTML el =
      (banner_open ++ "</div></div>" ++ banner_middle ++ "There" ++
       banner_close)%string /\
    innerHTML el =
      (banner_before_title ++ (title_start_tag ++ "</div>") ++
       "</div>" ++ banner_middle ++ "There" ++ banner_close)%string /\
    plain_banner (innerHTML el) = false.
Proof.
  apply (handleNotificationReceived_markup_title (android_host None)
           (page app_href) markup_title "There"); reflexivity.
Defined.

(** ** C2: initialisation on a host that is not native *)

Definition web_notice : effect :=
  console log [str "Push notifications not available on web platform"].

Definition module_notice : effect :=
  console log [str "🔔 LeqoeHunt Push Notifications module loaded"].

Lemma initialize_web (e : env) (s : state) :
  isNativePlatform e = false ->
  initialize e s = (Ok tt, emitting [web_notice] s).
Proof.
  intros Hweb. unfold initialize, bind, asks. now rewrite Hweb.
Qed.

Lemma loaded_web (e : env) (href : string) :
  isNativePlatform e = false ->
  loaded e href =
    mkState false VNull href 0 [] [] [] [] [] [web_notice; module_notice].
Proof.
  intros Hweb.
  unfold loaded, module_body, constructor, initialize, bind, asks.
  cbn. now rewrite Hweb.
Qed.

(** C2.  On a host that is not native, [initialize] writes its console line
    and returns: it makes no call (no permission check or request, no
    registration), hands no listener to the plugin and parks nothing, and it
    leaves every field as it was.  The object built when the module loads
    therefore has its ready flag false. *)
Theorem initialize_on_web (e : env) (s : state) (href : string) :
  isNativePlatform e = false ->
  initialize e s = (Ok tt, emitting [web_notice] s) /\
  loaded e href =
    mkState false VNull href 0 [] [] [] [] [] [web_notice; module_notice].
Proof.
  intros Hweb. split.
  - exact (initialize_web e s Hweb).
  - exact (loaded_web e href Hweb).
Qed.

Lemma initialize_on_web_witness :
  initialize browser_host (page app_href) =
    (Ok tt, emitting [web_notice] (page app_href)) /\
  loaded browser_host app_href =
    mkState false VNull app_href 0 [] [] [] [] [] [web_notice; module_notice].
Proof.
  apply (initialize_on_web browser_host (page app_href) app_href).
  reflexivity.
Defined.

(** ** initialize, one await at a time *)

Definition denied_notice : effect :=
  console warn [str "Push notification permission denied"].

Definition failed_notice (x : exn) : effect :=
  console error [str "Failed to initialize push notifications:"; AE x].

Definition ready_notice : effect :=
  console log [str "✅ LeqoeHunt Push Notifications initialized successfully"].

(** The state after one more promise-returning call of [initialize]. *)
Definition awaiting (a : awaitable) (k : initialize_await) (s : state) : state :=
  parking [mkSuspended a (initialize_at k)] (emitting [call a] s).

(** The state after one more [addListener] call. *)
Definition adding (ev : event) (s : state) : state :=
  awaiting (addListener ev) (after_addListener ev)
    (set_listeners (listeners s ++ [ev]) s).

Lemma initialize_rejected (k : initialize_await) (x : exn) (e : env) (s : state) :
  initialize_resume k (Rejected x) e s = (Ok tt, emitting [failed_notice x] s).
Proof. destruct k as [| | |[]]; reflexivity. Qed.

Lemma initialize_native (e : env) (s : state) :
  isNativePlatform e = true ->
  initialize e s =
    (Ok tt, awaiting checkPermissions after_checkPermissions s).
Proof.
  intros Hnative. unfold initialize, bind, asks. now rewrite Hnative.
Qed.

Lemma initialize_with_permission_granted (p : value) (e : env) (s : state) :
  get p "receive" = Ok (VString "granted") ->
  initialize_with_permission p e s = (Ok tt, awaiting register after_register s).
Proof.
  intros Hp. unfold initialize_with_permission, bind, lift. now reads.
Qed.

Lemma initialize_with_permission_denied (p r : value) (e : env) (s : state) :
  get p "receive" = Ok r ->
  r <> VString "granted" ->
  initialize_with_permission p e s = (Ok tt, emitting [denied_notice] s).
Proof.
  intros Hp Hr. apply strict_eq_string_false in Hr.
  unfold initialize_with_permission, bind, lift. reads. now rewrite Hr.
Qed.

Lemma initialize_checked_prompt (p : value) (e : env) (s : state) :
  get p "receive" = Ok (VString "prompt") ->
  initialize_resume after_checkPermissions (Resolved p) e s =
    (Ok tt, awaiting requestPermissions after_requestPermissions s).
Proof.
  intros Hp.
  unfold initialize_resume, initialize_catch, try_catch, bind, lift, awaited, ret.
  now reads.
Qed.

Lemma initialize_checked_granted (p : value) (e : env) (s : state) :
  get p "receive" = Ok (VString "granted") ->
  initialize_resume after_checkPermissions (Resolved p) e s =
    (Ok tt, awaiting register after_register s).
Proof.
  intros Hp.
  unfold initialize_resume, initialize_catch, try_catch, bind, lift, awaited, ret.
  reads. cbn. now reads.
Qed.

Lemma initialize_checked_denied (p r : value) (e : env) (s : state) :
  get p "receive" = Ok r ->
  r <> VString "prompt" ->
  r <> VString "granted" ->
  initialize_resume after_checkPermissions (Resolved p) e s =
    (Ok tt, emitting [denied_notice] s).
Proof.
  intros Hp Hprompt Hr. apply strict_eq_string_false in Hprompt.
  unfold initialize_resume, initialize_catch, try_catch, bind, lift, awaited, ret.
  reads. rewrite Hprompt.
  now rewrite (initialize_with_permission_denied p r e s Hp Hr).
Qed.

Lemma initialize_requested_granted (p : value) (e : env) (s : state) :
  get p "receive" = Ok (VString "granted") ->
  initialize_resume after_requestPermissions (Resolved p) e s =
    (Ok tt, awaiting register after_register s).
Proof.
  intros Hp.
  unfold initialize_resume, initialize_catch, try_catch, bind, awaited, ret.
  now rewrite (initialize_with_permission_granted p e s Hp).
Qed.

Lemma initialize_requested_denied (p r : value) (e : env) (s : state) :
  get p "receive" = Ok r ->
  r <> VString "granted" ->
  initialize_resume after_requestPermissions (Resolved p) e s =
    (Ok tt, emitting [denied_notice] s).
Proof.
  intros Hp Hr.
  unfold initialize_resume, initialize_catch, try_catch, bind, awaited, ret.
  now rewrite (initialize_with_permission_denied p r e s Hp Hr).
Qed.

Lemma initialize_registered (v : value) (e : env) (s : state) :
  initialize_resume after_register (Resolved v) e s =
    (Ok tt, adding registration s).
Proof. reflexivity. Qed.

Definition next_listener (ev : event) : option event :=
  match ev with
  | registration => Some registrationError
  | registrationError => Some pushNotificationReceived
  | pushNotificationReceived => Some pushNotificationActionPerformed
  | pushNotificationActionPerformed => None
  end.

Lemma initialize_listener_added (ev : event) (v : value) (e : env) (s : state) :
  initialize_resume (after_addListener ev) (Resolved v) e s =
    (Ok tt,
     match next_listener ev with
     | Some ev' => adding ev' s
     | None => emitting [ready_notice] (set_isInitialized true s)
     end).
Proof. destruct ev; reflexivity. Qed.

Arguments initialize_resume : simpl never.

(** The object after loading on a native host: [initialize] is parked at
    its permission check. *)
Lemma loaded_native (e : env) (href : string) :
  isNativePlatform e = true ->
  loaded e href =
    mkState false VNull href 0 [] [] [] []
      [mkSuspended checkPermissions (initialize_at after_checkPermissions)]
      [call checkPermissions; module_notice].
Proof.
  intros Hnative.
  unfold loaded, module_body, constructor, initialize, bind, asks.
  cbn. now rewrite Hnative.
Qed.

(** ** C4: permission not granted *)

(** C4.  On a native host, when the permission state that [initialize] ends
    up with is not [granted], whether the check reported it directly or the
    request answered it after a [prompt], the method writes its warning and
    returns: [register] is never called, no listener is attached, nothing is
    left parked and the ready flag is false. *)
Theorem initialize_permission_not_granted
    (e0 e1 e2 : env) (href : string) (p p' r : value) :
  isNativePlatform e0 = true ->
  r <> VString "granted" ->
  (get p "receive" = Ok r ->
   r <> VString "prompt" ->
   run [(e1, Settle 0 (Resolved p))] (loaded e0 href) =
     Some (mkState false VNull href 0 [] [] [] [] []
             [call checkPermissions; module_notice;
              settled checkPermissions (Resolved p);
              denied_notice])) /\
  (get p "receive" = Ok (VString "prompt") ->
   get p' "receive" = Ok r ->
   run [(e1, Settle 0 (Resolved p)); (e2, Settle 0 (Resolved p'))]
       (loaded e0 href) =
     Some (mkState false VNull href 0 [] [] [] [] []
             [call checkPermissions; module_notice;
              settled checkPermissions (Resolved p);
              call requestPermissions;
              settled requestPermissions (Resolved p');
              denied_notice])).
Proof.
  intros Hnative Hr.
  rewrite (loaded_native e0 href Hnative). split.
  - intros Hp Hprompt. cbn.
    now rewrite (initialize_checked_denied p r _ _ Hp Hprompt Hr).
  - intros Hp Hp'. cbn.
    rewrite (initialize_checked_prompt p _ _ Hp). cbn.
    now rewrite (initialize_requested_denied p' r _ _ Hp' Hr).
Qed.

Lemma initialize_permission_not_granted_witness :
  run [(android_host None, Settle 0 (Resolved (permission "denied")))]
      (loaded (android_host None) app_href) =
    Some (mkState false VNull app_href 0 [] [] [] [] []
            [call checkPermissions; module_notice;
             settled checkPermissions (Resolved (permission "denied"));
             denied_notice]) /\
  run [(android_host None, Settle 0 (Resolved (permission "prompt")));
       (android_host None, Settle 0 (Resolved (permission "denied")))]
      (loaded (android_host None) app_href) =
    Some (mkState false VNull app_href 0 [] [] [] [] []
            [call checkPermissions; module_notice;
             settled checkPermissions (Resolved (permission "prompt"));
             call requestPermissions;
             settled requestPermissions (Resolved (permission "denied"));
             denied_notice]).
Proof.
  split.
  - apply (initialize_permission_not_granted (android_host None)
             (android_host None) (android_host None) app_href
             (permission "denied") (permission "denied") (VString "denied"));
      try reflexivity; discriminate.
  - apply (initialize_permission_not_granted (android_host None)
             (android_host None) (android_host None) app_href
             (permission "prompt") (permission "denied") (VString "denied"));
      try reflexivity; discriminate.
Defined.

(** ** C3: permission granted after a prompt *)

Definition four_listeners : list event :=
  [registration; registrationError; pushNotificationReceived;
   pushNotificationActionPerformed].

(** The interaction log up to the call of [register], when the check
    answered [p] and the request answered [p']. *)
Definition prompted_trace (p p' : value) : list effect :=
  [call checkPermissions; module_notice;
   settled checkPermissions (Resolved p);
   call requestPermissions;
   settled requestPermissions (Resolved p');
   call register].

(** C3, as the script has it.  On a native host, when the check reports
    [prompt] and the request resolves with [granted], [initialize] calls
    [register]; when [register] and then each of the four [addListener]
    calls resolve, the four listeners are attached and the method ends with
    the ready flag true and nothing left parked. *)
Theorem initialize_prompt_then_granted
    (e0 e1 e2 e3 e4 e5 e6 e7 : env) (href : string)
    (p p' v0 v1 v2 v3 v4 : value) :
  isNativePlatform e0 = true ->
  get p "receive" = Ok (VString "prompt") ->
  get p' "receive" = Ok (VString "granted") ->
  run [(e1, Settle 0 (Resolved p)); (e2, Settle 0 (Resolved p'))]
      (loaded e0 href) =
    Some (mkState false VNull href 0 [] [] [] []
            [mkSuspended register (initialize_at after_register)]
            (prompted_trace p p')) /\
  run [(e1, Settle 0 (Resolved p)); (e2, Settle 0 (Resolved p'));
       (e3, Settle 0 (Resolved v0));
       (e4, Settle 0 (Resolved v1)); (e5, Settle 0 (Resolved v2));
       (e6, Settle 0 (Resolved v3)); (e7, Settle 0 (Resolved v4))]
      (loaded e0 href) =
    Some (mkState true VNull href 0 [] [] [] four_listeners []
            (prompted_trace p p' ++
             [settled register (Resolved v0);
              call (addListener registration);
              settled (addListener registration) (Resolved v1);
              call (addListener registrationError);
              settled (addListener registrationError) (Resolved v2);
              call (addListener pushNotificationReceived);
              settled (addListener pushNotificationReceived) (Resolved v3);
              call (addListener pushNotificationActionPerformed);
              settled (addListener pushNotificationActionPerformed) (Resolved v4);
              ready_notice])).
Proof.
  intros Hnative Hp Hp'.
  rewrite (loaded_native e0 href Hnative). split.
  - cbn. rewrite (initialize_checked_prompt p _ _ Hp). cbn.
    now rewrite (initialize_requested_granted p' _ _ Hp').
  - cbn. rewrite (initialize_checked_prompt p _ _ Hp). cbn.
    rewrite (initialize_requested_granted p' _ _ Hp'). cbn.
    rewrite initialize_registered. cbn.
    repeat (rewrite initialize_listener_added; cbn).
    reflexivity.
Qed.

Definition prompt_then_granted : list (env * label) :=
  [(android_host None, Settle 0 (Resolved (permission "prompt")));
   (android_host None, Settle 0 (Resolved (permission "granted")))].

Lemma initialize_prompt_then_granted_witness :
  run prompt_then_granted (loaded (android_host None) app_href) =
    Some (mkState false VNull app_href 0 [] [] [] []
            [mkSuspended register (initialize_at after_register)]
            (prompted_trace (permission "prompt") (permission "granted"))) /\
  run (prompt_then_granted ++
       [(android_host None, Settle 0 (Resolved VUndefined));
        (android_host None, Settle 0 (Resolved handle));
        (android_host None, Settle 0 (Resolved handle));
        (android_host None, Settle 0 (Resolved handle));
        (android_host None, Settle 0 (Resolved handle))])
      (loaded (android_host None) app_href) =
    Some (mkState true VNull app_href 0 [] [] [] four_listeners []
            (prompted_trace (permission "prompt") (permission "granted") ++
             [settled register (Resolved VUndefined);
              call (addListener registration);
              settled (addListener registration) (Resolved handle);
              call (addListener registrationError);
              settled (addListener registrationError) (Resolved handle);
              call (addListener pushNotificationReceived);
              settled (addListener pushNotificationReceived) (Resolved handle);
              call (addListener pushNotificationActionPerformed);
              settled (addListener pushNotificationActionPerformed)
                (Resolved handle);
              ready_notice])).
Proof.
  apply (initialize_prompt_then_granted
           (android_host None) (android_host None) (android_host None)
           (android_host None) (android_host None) (android_host None)
           (android_host None) (android_host None) app_href
           (permission "prompt") (permission "granted")
           VUndefined handle handle handle handle); reflexivity.
Defined.

Definition play_services_missing : exn := Thrown (VString "MISSING_INSTANCEID_SERVICE").

(** C3 as the claim words it does not hold: after a [prompt] answered by
    [granted], a [register] call that the plugin rejects ends [initialize]
    in its [catch] block, with nothing parked, no listener attached and the
    ready flag false. *)
Lemma initialize_prompt_then_granted_register_rejected :
  run (prompt_then_granted ++
       [(android_host None, Settle 0 (Rejected play_services_missing))])
      (loaded (android_host None) app_href) =
    Some (mkState false VNull app_href 0 [] [] [] [] []
            (prompted_trace (permission "prompt") (permission "granted") ++
             [settled register (Rejected play_services_missing);
              failed_notice play_services_missing])).
Proof. reflexivity. Qed.

(** ** Forwarding the token: C1 and C8 *)

Definition token_request (token user_id : value) (now : string) : request :=
  mkRequest "https://leqoehunt.my/api/push-token" "POST"
    [("Content-Type", "application/json"); ("Accept", "application/json")]
    (JSON_stringify
       (VObject [("device_token", token);
                 ("platform", VString "android");
                 ("app_version", VString "1.0.0");
                 ("user_id", user_id);
                 ("timestamp", VString now)])).

(** The state after the token request has gone out. *)
Definition posting (req : request) (s : state) : state :=
  parking [mkSuspended (fetch req) sendTokenToServer_after_fetch]
    (emitting [call (fetch req)] s).

Definition parse_notice (x : exn) : effect :=
  console warn [str "Could not parse user info:"; AE x].

Definition send_failed_notice (x : exn) : effect :=
  console error [str "Error sending token to server:"; AE x].

Definition no_user : value := VObject [("userId", VNull)].

(** The item [getUserInfo] looks at: the local one when it is truthy, the
    session one otherwise. *)
Definition stored_item (e : env) : result (option string) :=
  match localStorage_getItem e "leqoehunt_user" with
  | Ok from_local =>
      if item_truthy from_local then Ok from_local
      else sessionStorage_getItem e "leqoehunt_user"
  | Throw x => Throw x
  end.

Lemma getUserInfo_absent (e : env) (s : state) (item : option string) :
  stored_item e = Ok item ->
  item_truthy item = false ->
  getUserInfo e s = (Ok no_user, s).
Proof.
  unfold stored_item, getUserInfo, try_catch, bind, ret, host. intros Hitem Hfalse.
  destruct (localStorage_getItem e "leqoehunt_user") as [from_local|];
    [|discriminate].
  destruct (item_truthy from_local) eqn:Hlocal.
  - injection Hitem as ->. congruence.
  - rewrite Hitem. destruct item as [text|]; [|reflexivity].
    now rewrite Hfalse.
Qed.

Lemma getUserInfo_parsed (e : env) (s : state) (text : string) (r : result value) :
  stored_item e = Ok (Some text) ->
  text <> "" ->
  JSON_parse e text = r ->
  getUserInfo e s =
    match r with
    | Ok parsed => (Ok parsed, s)
    | Throw x => (Ok no_user, emitting [parse_notice x] s)
    end.
Proof.
  unfold stored_item, getUserInfo, try_catch, bind, ret, host. intros Hitem Htext Hr.
  assert (Htruthy : item_truthy (Some text) = true).
  { cbn. apply negb_true_iff. now apply String.eqb_neq. }
  destruct (localStorage_getItem e "leqoehunt_user") as [from_local|];
    [|discriminate].
  destruct (item_truthy from_local) eqn:Hlocal.
  - injection Hitem as ->. rewrite Htruthy, Hr. now destruct r.
  - rewrite Hitem, Htruthy, Hr. now destruct r.
Qed.

Lemma getUserInfo_unreadable (e : env) (s : state) (x : exn) :
  stored_item e = Throw x ->
  getUserInfo e s = (Ok no_user, emitting [parse_notice x] s).
Proof.
  unfold stored_item, getUserInfo, try_catch, bind, ret, host. intros Hitem.
  destruct (localStorage_getItem e "leqoehunt_user") as [from_local|y].
  - destruct (item_truthy from_local); [discriminate|]. now rewrite Hitem.
  - now injection Hitem as ->.
Qed.

(** Whatever [getUserInfo] returned, a record that can be read for its
    [userId] lets the request go out. *)
Lemma sendTokenToServer_posts
    (token u uid : value) (e : env) (s s1 : state) :
  getUserInfo e s = (Ok u, s1) ->
  get u "userId" = Ok uid ->
  sendTokenToServer token e s =
    (Ok tt,
     posting (token_request token (or_else uid VNull) (Date_toISOString e)) s1).
Proof.
  intros Hinfo Huid.
  unfold sendTokenToServer, sendTokenToServer_catch, try_catch, bind.
  rewrite Hinfo. unfold lift. now reads.
Qed.

(** The part of C8 the script keeps: with no stored item, with an item that
    cannot be read or parsed, and with a parsed value other than [null]
    that has no truthy [userId], the request goes out with [user_id] null. *)
Lemma sendTokenToServer_without_user (token : value) (e : env) (s : state) :
  (forall item,
      stored_item e = Ok item -> item_truthy item = false ->
      sendTokenToServer token e s =
        (Ok tt, posting (token_request token VNull (Date_toISOString e)) s)) /\
  (forall x,
      stored_item e = Throw x ->
      sendTokenToServer token e s =
        (Ok tt, posting (token_request token VNull (Date_toISOString e))
                  (emitting [parse_notice x] s))) /\
  (forall text x,
      stored_item e = Ok (Some text) -> text <> "" ->
      JSON_parse e text = Throw x ->
      sendTokenToServer token e s =
        (Ok tt, posting (token_request token VNull (Date_toISOString e))
                  (emitting [parse_notice x] s))) /\
  (forall text parsed uid,
      stored_item e = Ok (Some text) -> text <> "" ->
      JSON_parse e text = Ok parsed ->
      get parsed "userId" = Ok uid -> truthy uid = false ->
      sendTokenToServer token e s =
        (Ok tt, posting (token_request token VNull (Date_toISOString e)) s)).
Proof.
  repeat split.
  - intros item Hitem Hfalse.
    now rewrite (sendTokenToServer_posts token no_user VNull e s s
                   (getUserInfo_absent e s item Hitem Hfalse) eq_refl).
  - intros x Hitem.
    now rewrite (sendTokenToServer_posts token no_user VNull e s _
                   (getUserInfo_unreadable e s x Hitem) eq_refl).
  - intros text x Hitem Htext Hparse.
    now rewrite (sendTokenToServer_posts token no_user VNull e s _
                   (getUserInfo_parsed e s text _ Hitem Htext Hparse) eq_refl).
  - intros text parsed uid Hitem Htext Hparse Huid Hfalsy.
    rewrite (sendTokenToServer_posts token parsed uid e s _
               (getUserInfo_parsed e s text _ Hitem Htext Hparse) Huid).
    unfold or_else. now rewrite Hfalsy.
Qed.

(** A stored [null] comes back from [getUserInfo] as it is, and the read of
    its [userId] ends [sendTokenToServer] in its [catch] block. *)
Lemma getUserInfo_null (e : env) (s : state) :
  localStorage_getItem e "leqoehunt_user" = Ok (Some "null") ->
  JSON_parse e "null" = Ok VNull ->
  getUserInfo e s = (Ok VNull, s).
Proof.
  intros Hlocal Hparse.
  assert (Hitem : stored_item e = Ok (Some "null")).
  { unfold stored_item. now rewrite Hlocal. }
  now rewrite (getUserInfo_parsed e s "null" _ Hitem ltac:(discriminate) Hparse).
Qed.

Lemma sendTokenToServer_null (token : value) (e : env) (s : state) :
  localStorage_getItem e "leqoehunt_user" = Ok (Some "null") ->
  JSON_parse e "null" = Ok VNull ->
  sendTokenToServer token e s = (Ok tt, emitting [send_failed_notice TypeError] s).
Proof.
  intros Hlocal Hparse.
  unfold sendTokenToServer, sendTokenToServer_catch, try_catch, bind.
  now rewrite (getUserInfo_null e s Hlocal Hparse).
Qed.

(** C8, where the script departs from it.  When the stored item is the JSON
    text [null], [JSON.parse] succeeds with [null], [getUserInfo] returns it
    instead of its default record, and reading [userId] of [null] throws in
    [sendTokenToServer]: the [catch] block writes an error line and no
    request goes out. *)
Theorem sendTokenToServer_stored_null (token : value) (e : env) (s : state) :
  localStorage_getItem e "leqoehunt_user" = Ok (Some "null") ->
  JSON_parse e "null" = Ok VNull ->
  getUserInfo e s = (Ok VNull, s) /\
  sendTokenToServer token e s = (Ok tt, emitting [send_failed_notice TypeError] s).
Proof.
  intros Hlocal Hparse. split.
  - exact (getUserInfo_null e s Hlocal Hparse).
  - exact (sendTokenToServer_null token e s Hlocal Hparse).
Qed.

Lemma sendTokenToServer_stored_null_witness :
  getUserInfo (android_host (Some "null")) (page app_href) =
    (Ok VNull, page app_href) /\
  sendTokenToServer (VString "T1") (android_host (Some "null")) (page app_href) =
    (Ok tt, emitting [send_failed_notice TypeError] (page app_href)).
Proof.
  apply (sendTokenToServer_stored_null (VString "T1")
           (android_host (Some "null")) (page app_href)); reflexivity.
Defined.

Definition registration_notice (v : value) : effect :=
  console log [str "Push registration success, token: "; AV v].

Lemma token_request_members (T : string) (uid : value) (now : string) :
  let sent := body (token_request (VString T) (or_else uid VNull) now) in
  json_member "device_token" sent = Some (VString T) /\
  json_member "platform" sent = Some (VString "android") /\
  json_member "app_version" sent = Some (VString "1.0.0") /\
  json_member "user_id" sent = Some (or_else uid VNull) /\
  json_member "timestamp" sent = Some (VString now).
Proof.
  unfold or_else. destruct uid; cbn; try destruct b; cbn;
    try destruct (ToBoolean_number n); cbn;
    try destruct (String.eqb s ""); cbn; repeat split.
Qed.

(** Lines 40-44 for a payload whose [value] can be read. *)
Lemma listener_registration (tok v : value) (e : env) (s : state) :
  get tok "value" = Ok v ->
  listener registration tok e s =
    sendTokenToServer v e
      (set_deviceToken v (emitting [registration_notice v] s)).
Proof.
  intros Htok. unfold listener, bind, lift. now reads.
Qed.

(** The part of C1 the script keeps: a registration event stores the token
    and, whenever the user record can be read for its [userId], sends
    exactly one POST to the token endpoint, the token in [device_token]. *)
Lemma registration_posts_token
    (tok u uid : value) (T : string) (e : env) (s s1 : state) :
  get tok "value" = Ok (VString T) ->
  getUserInfo e
    (set_deviceToken (VString T) (emitting [registration_notice (VString T)] s)) =
    (Ok u, s1) ->
  get u "userId" = Ok uid ->
  listener registration tok e s =
    (Ok tt,
     posting (token_request (VString T) (or_else uid VNull) (Date_toISOString e))
       s1).
Proof.
  intros Htok Hinfo Huid.
  rewrite (listener_registration tok (VString T) e s Htok).
  exact (sendTokenToServer_posts (VString T) u uid e _ s1 Hinfo Huid).
Qed.

(** C1, where the script departs from it.  A registration event with token
    [T] stores [T], so that [getDeviceToken] returns it; but when the stored
    user item is the JSON text [null] the event sends no POST at all: the
    listener writes its console line, [sendTokenToServer] writes an error
    line, and no call is parked or logged. *)
Theorem registration_stored_null (tok : value) (T : string) (e : env) (s : state) :
  get tok "value" = Ok (VString T) ->
  localStorage_getItem e "leqoehunt_user" = Ok (Some "null") ->
  JSON_parse e "null" = Ok VNull ->
  exists s',
    listener registration tok e s = (Ok tt, s') /\
    getDeviceToken e s' = (Ok (VString T), s') /\
    pending s' = pending s /\
    trace s' =
      trace s ++ [registration_notice (VString T); send_failed_notice TypeError].
Proof.
  intros Htok Hlocal Hparse.
  exists (emitting [send_failed_notice TypeError]
            (set_deviceToken (VString T)
               (emitting [registration_notice (VString T)] s))).
  split; [|repeat split].
  - rewrite (listener_registration tok (VString T) e s Htok).
    exact (sendTokenToServer_null (VString T) e _ Hlocal Hparse).
  - cbn. now rewrite <- app_assoc.
Qed.

Definition token_T1 : value := VObject [("value", VString "T1")].

Lemma registration_stored_null_witness :
  exists s',
    listener registration token_T1 (android_host (Some "null")) (page app_href) =
      (Ok tt, s') /\
    getDeviceToken (android_host (Some "null")) s' = (Ok (VString "T1"), s') /\
    pending s' = pending (page app_href) /\
    trace s' =
      trace (page app_href) ++
        [registration_notice (VString "T1"); send_failed_notice TypeError].
Proof.
  apply (registration_stored_null token_T1 "T1" (android_host (Some "null"))
           (page app_href)); reflexivity.
Defined.

(** The same event on a host that stores the record of user u7, and on one
    that stores nothing: one POST each, with the token. *)
Example registration_T1_with_user :
  listener registration token_T1 (android_host (Some user_u7_text))
    (page app_href) =
    (Ok tt,
     posting (token_request (VString "T1") (VString "u7")
                "2024-05-01T08:00:00.000Z")
       (set_deviceToken (VString "T1")
          (emitting [registration_notice (VString "T1")] (page app_href)))).
Proof. reflexivity. Qed.

Example registration_T1_without_user :
  listener registration token_T1 (android_host None) (page app_href) =
    (Ok tt,
     posting (token_request (VString "T1") VNull "2024-05-01T08:00:00.000Z")
       (set_deviceToken (VString "T1")
          (emitting [registration_notice (VString "T1")] (page app_href)))).
Proof. reflexivity. Qed.

(** ** The ready flag: C9 *)

(** *** Relations every computation keeps *)

Section Preservation.
Variable R : state -> state -> Prop.
Hypothesis R_refl : forall s, R s s.
Hypothesis R_trans : forall a b c, R a b -> R b c -> R a c.

(** [m] takes a state to one related to it, returning or throwing. *)
Definition preserves {A} (m : M A) : Prop :=
  forall e s, R s (snd (m e s)).

Lemma preserves_ret {A} (a : A) : preserves (ret a).
Proof. intros e s. apply R_refl. Qed.

Lemma preserves_throw {A} (x : exn) : preserves (@throw A x).
Proof. intros e s. apply R_refl. Qed.

Lemma preserves_lift {A} (r : result A) : preserves (lift r).
Proof. intros e s. apply R_refl. Qed.

Lemma preserves_host {A} (f : env -> result A) : preserves (host f).
Proof. intros e s. apply R_refl. Qed.

Lemma preserves_asks {A} (f : env -> A) : preserves (asks f).
Proof. intros e s. apply R_refl. Qed.

Lemma preserves_gets {A} (f : state -> A) : preserves (gets f).
Proof. intros e s. apply R_refl. Qed.

Lemma preserves_modify (f : state -> state) :
  (forall s, R s (f s)) -> preserves (modify f).
Proof. intros Hf e s. apply Hf. Qed.

Lemma preserves_bind {A B} (m : M A) (k : A -> M B) :
  preserves m -> (forall a, preserves (k a)) -> preserves (bind m k).
Proof.
  intros Hm Hk e s. unfold bind. specialize (Hm e s).
  destruct (m e s) as [[a|x] s1]; cbn in *; [|exact Hm].
  eapply R_trans; [exact Hm | apply Hk].
Qed.

Lemma preserves_try_catch {A} (m : M A) (h : exn -> M A) :
  preserves m -> (forall x, preserves (h x)) -> preserves (try_catch m h).
Proof.
  intros Hm Hh e s. unfold try_catch. specialize (Hm e s).
  destruct (m e s) as [[a|x] s1]; cbn in *; [exact Hm|].
  eapply R_trans; [exact Hm | apply Hh].
Qed.

Lemma preserves_if {A} (b : bool) (m1 m2 : M A) :
  preserves m1 -> preserves m2 -> preserves (if b then m1 else m2).
Proof. now destruct b. Qed.

Lemma preserves_awaited (s : settle) : preserves (awaited s).
Proof. destruct s; [apply preserves_ret | apply preserves_throw]. Qed.

Lemma preserves_discard {A} (m : M A) : preserves m -> preserves (discard m).
Proof.
  intros Hm. apply preserves_bind; [exact Hm|]. intros a. apply preserves_ret.
Qed.
End Preservation.

(** *** Computations that neither touch the flag nor park [initialize] at a
    listener *)

Definition listener_stage (k : continuation) : Prop :=
  exists ev, k = initialize_at (after_addListener ev).

(** From [s] to [s']: the flag is the same, the log has grown, and what was
    parked besides is no listener stage of [initialize]. *)
Definition quiet (s s' : state) : Prop :=
  isInitialized s' = isInitialized s /\
  (exists tr, trace s' = trace s ++ tr) /\
  (exists ps, pending s' = pending s ++ ps /\
              Forall (fun p => ~ listener_stage (resume_at p)) ps).

Lemma quiet_refl (s : state) : quiet s s.
Proof.
  repeat split.
  - exists []. now rewrite app_nil_r.
  - exists []. split; [now rewrite app_nil_r | constructor].
Qed.

Lemma quiet_trans (a b c : state) : quiet a b -> quiet b c -> quiet a c.
Proof.
  intros (Hf1 & [tr1 Ht1] & [ps1 [Hp1 Hq1]]) (Hf2 & [tr2 Ht2] & [ps2 [Hp2 Hq2]]).
  repeat split.
  - congruence.
  - exists (tr1 ++ tr2). now rewrite Ht2, Ht1, app_assoc.
  - exists (ps1 ++ ps2). split.
    + now rewrite Hp2, Hp1, app_assoc.
    + apply Forall_app. now split.
Qed.

(** A write to a field other than the three the relation reads. *)
Lemma quiet_same (s s' : state) :
  isInitialized s' = isInitialized s ->
  trace s' = trace s ->
  pending s' = pending s ->
  quiet s s'.
Proof.
  intros Hf Ht Hp. unfold quiet. rewrite Ht, Hp. repeat split.
  - exact Hf.
  - exists []. now rewrite app_nil_r.
  - exists []. split; [now rewrite app_nil_r | constructor].
Qed.

Lemma quiet_emitting (tr : list effect) (s : state) : quiet s (emitting tr s).
Proof.
  repeat split.
  - now exists tr.
  - exists []. split; [cbn; now rewrite app_nil_r | constructor].
Qed.

Lemma quiet_parking (a : awaitable) (k : continuation) (s : state) :
  ~ listener_stage k -> quiet s (parking [mkSuspended a k] s).
Proof.
  intros Hk. repeat split.
  - exists []. cbn. now rewrite app_nil_r.
  - exists [mkSuspended a k]. split; [reflexivity|].
    constructor; [exact Hk | constructor].
Qed.

Lemma quietly_emit (x : effect) : preserves quiet (emit x).
Proof. intros e s. apply (quiet_emitting [x]). Qed.

Lemma quietly_await (a : awaitable) (k : continuation) :
  ~ listener_stage k -> preserves quiet (await a k).
Proof.
  intros Hk e s.
  change (quiet s (parking [mkSuspended a k] (emitting [call a] s))).
  eapply quiet_trans; [apply (quiet_emitting [call a]) |].
  apply (quiet_parking a k _ Hk).
Qed.

Lemma not_listener_stage_check :
  ~ listener_stage (initialize_at after_checkPermissions).
Proof. intros [ev H]. discriminate. Qed.

Lemma not_listener_stage_request :
  ~ listener_stage (initialize_at after_requestPermissions).
Proof. intros [ev H]. discriminate. Qed.

Lemma not_listener_stage_register :
  ~ listener_stage (initialize_at after_register).
Proof. intros [ev H]. discriminate. Qed.

Lemma not_listener_stage_send : ~ listener_stage sendTokenToServer_after_fetch.
Proof. intros [ev H]. discriminate. Qed.

Lemma not_listener_stage_track : ~ listener_stage trackNotificationEvent_catch.
Proof. intros [ev H]. discriminate. Qed.

Create HintDb quiet.
#[local] Hint Resolve not_listener_stage_check not_listener_stage_request
  not_listener_stage_register not_listener_stage_send
  not_listener_stage_track : quiet.
#[local] Hint Resolve quietly_emit quietly_await : quiet.

(** Takes a computation apart along its binds, handlers and branches; the
    leaves are closed from the hint database. *)
Ltac quiet_side :=
  first [ exact quiet_refl | exact quiet_trans | solve [auto with quiet] ].

Ltac quietly_tac :=
  unfold console_log, console_warn, console_error, navigate;
  repeat first
    [ solve [auto with quiet]
    | apply preserves_ret; quiet_side
    | apply preserves_throw; quiet_side
    | apply preserves_lift; quiet_side
    | apply preserves_host; quiet_side
    | apply preserves_asks; quiet_side
    | apply preserves_gets; quiet_side
    | apply preserves_awaited; quiet_side
    | apply preserves_bind; [quiet_side .. | idtac | intros ?]
    | apply preserves_try_catch; [quiet_side .. | idtac | intros ?]
    | apply preserves_if; [quiet_side .. | idtac | idtac]
    | apply preserves_discard; [quiet_side .. | idtac]
    | apply preserves_modify; intros ?; apply quiet_same; reflexivity
    | match goal with
      | |- preserves _ (match ?x with _ => _ end) => destruct x
      end ].

Lemma quietly_getUserInfo : preserves quiet getUserInfo.
Proof. unfold getUserInfo. quietly_tac. Qed.
#[local] Hint Resolve quietly_getUserInfo : quiet.

Lemma quietly_sendTokenToServer (token : value) : preserves quiet (sendTokenToServer token).
Proof. unfold sendTokenToServer, sendTokenToServer_catch. quietly_tac. Qed.
#[local] Hint Resolve quietly_sendTokenToServer : quiet.

Lemma quietly_trackNotificationEvent (action n : value) :
  preserves quiet (trackNotificationEvent action n).
Proof. unfold trackNotificationEvent. quietly_tac. Qed.
#[local] Hint Resolve quietly_trackNotificationEvent : quiet.

Lemma quietly_navigateToKedai (v : value) : preserves quiet (navigateToKedai v).
Proof. unfold navigateToKedai. quietly_tac. Qed.

Lemma quietly_navigateToPhotoHunt (v : value) :
  preserves quiet (navigateToPhotoHunt v).
Proof. unfold navigateToPhotoHunt. quietly_tac. Qed.

Lemma quietly_navigateToBusinessDashboard :
  preserves quiet navigateToBusinessDashboard.
Proof. unfold navigateToBusinessDashboard. quietly_tac. Qed.

Lemma quietly_navigateToPromotion (v : value) :
  preserves quiet (navigateToPromotion v).
Proof. unfold navigateToPromotion. quietly_tac. Qed.

Lemma quietly_navigateToHome : preserves quiet navigateToHome.
Proof. unfold navigateToHome. quietly_tac. Qed.

#[local] Hint Resolve quietly_navigateToKedai quietly_navigateToPhotoHunt
  quietly_navigateToBusinessDashboard quietly_navigateToPromotion
  quietly_navigateToHome : quiet.

Lemma quietly_showInAppNotification (n : value) :
  preserves quiet (showInAppNotification n).
Proof.
  unfold showInAppNotification, createElement, head_appendChild,
    body_appendChild, setTimeout.
  quietly_tac.
Qed.
#[local] Hint Resolve quietly_showInAppNotification : quiet.

Lemma quietly_handleNotificationReceived (n : value) :
  preserves quiet (handleNotificationReceived n).
Proof. unfold handleNotificationReceived. quietly_tac. Qed.

Lemma quietly_handleNotificationTapped (n : value) :
  preserves quiet (handleNotificationTapped n).
Proof. unfold handleNotificationTapped. quietly_tac. Qed.

#[local] Hint Resolve quietly_handleNotificationReceived
  quietly_handleNotificationTapped : quiet.

Lemma quietly_listener (ev : event) (payload : value) :
  preserves quiet (listener ev payload).
Proof. destruct ev; unfold listener; quietly_tac. Qed.

Lemma quietly_initialize : preserves quiet initialize.
Proof. unfold initialize, initialize_catch. quietly_tac. Qed.
#[local] Hint Resolve quietly_initialize : quiet.

Lemma quietly_invoke (c : invocation) : preserves quiet (invoke c).
Proof.
  destruct c; unfold invoke, getDeviceToken, isReady; quietly_tac.
Qed.

Lemma quietly_run_timer (cb : timer_callback) : preserves quiet (run_timer cb).
Proof.
  destruct cb. unfold run_timer, remove_node. quietly_tac.
Qed.

Lemma quietly_sendTokenToServer_resume (outcome : settle) :
  preserves quiet (sendTokenToServer_resume outcome).
Proof. unfold sendTokenToServer_resume, sendTokenToServer_catch. quietly_tac. Qed.

Lemma quietly_trackNotificationEvent_resume (outcome : settle) :
  preserves quiet (trackNotificationEvent_resume outcome).
Proof. unfold trackNotificationEvent_resume. quietly_tac. Qed.

Lemma quietly_initialize_with_permission (p : value) :
  preserves quiet (initialize_with_permission p).
Proof. unfold initialize_with_permission. quietly_tac. Qed.
#[local] Hint Resolve quietly_initialize_with_permission : quiet.

(** Before [register] has resolved, resuming [initialize] is quiet whatever
    the host answers. *)
Lemma quietly_initialize_resume_permission (outcome : settle) :
  preserves quiet (initialize_resume after_checkPermissions outcome) /\
  preserves quiet (initialize_resume after_requestPermissions outcome).
Proof.
  split; unfold initialize_resume, initialize_catch; quietly_tac.
Qed.

(** An exception that reaches the host adds a line to the log. *)
Lemma quiet_finish (s : state) (r : result unit * state) :
  quiet s (snd r) -> quiet s (finish r).
Proof.
  destruct r as [[u|x] s1]; cbn; [trivial|].
  intros H. eapply quiet_trans; [exact H|]. apply (quiet_emitting [uncaught x]).
Qed.

(** *** What resuming a parked method can do *)

(** The state in which a parked method resumes: it has left the list and its
    settlement is in the log. *)
Definition settling (n : nat) (p : suspended) (outcome : settle) (s : state)
    : state :=
  emitting [settled (awaited_call p) outcome]
    (set_pending (remove_nth n (pending s)) s).

Lemma step_settle (e : env) (n : nat) (outcome : settle) (s : state) (p : suspended) :
  nth_error (pending s) n = Some p ->
  step e (Settle n outcome) s =
    Some (finish (resume (resume_at p) outcome e (settling n p outcome s))).
Proof. intros Hp. unfold step. now rewrite Hp. Qed.

(** Resuming is quiet, except at the two kinds of stage that attach a
    listener or finish [initialize]. *)
Lemma resume_cases (k : continuation) (outcome : settle) (e : env) (s : state) :
  quiet s (finish (resume k outcome e s)) \/
  (exists v,
      k = initialize_at after_register /\ outcome = Resolved v /\
      finish (resume k outcome e s) = adding registration s) \/
  (exists ev v,
      k = initialize_at (after_addListener ev) /\ outcome = Resolved v /\
      finish (resume k outcome e s) =
        match next_listener ev with
        | Some ev' => adding ev' s
        | None => emitting [ready_notice] (set_isInitialized true s)
        end).
Proof.
  destruct k as [a| |]; cbn [resume].
  - destruct outcome as [v|x].
    + destruct a as [| | |ev].
      * left. apply quiet_finish.
        apply (proj1 (quietly_initialize_resume_permission (Resolved v))).
      * left. apply quiet_finish.
        apply (proj2 (quietly_initialize_resume_permission (Resolved v))).
      * right. left. exists v. now rewrite initialize_registered.
      * right. right. exists ev, v. now rewrite initialize_listener_added.
    + left. rewrite initialize_rejected. apply (quiet_emitting [failed_notice x]).
  - left. apply quiet_finish. apply quietly_sendTokenToServer_resume.
  - left. apply quiet_finish. apply quietly_trackNotificationEvent_resume.
Qed.

(** What every single dispatch keeps, the delivery of an event keeps. *)
Lemma dispatch_related
    (R : state -> state -> Prop)
    (R_refl : forall s, R s s)
    (R_trans : forall a b c, R a b -> R b c -> R a c)
    (m : M unit) (e : env) :
  (forall s, R s (finish (m e s))) ->
  forall k s, R s (dispatch k m e s).
Proof.
  intros Hm k. induction k as [|k IH]; intros s; cbn [dispatch].
  - apply R_refl.
  - eapply R_trans; [apply Hm | apply IH].
Qed.

(** Every step but a settlement is quiet. *)
Lemma step_quiet (e : env) (l : label) (s s' : state) :
  (forall n outcome, l <> Settle n outcome) ->
  step e l s = Some s' ->
  quiet s s'.
Proof.
  intros Hl Hstep. destruct l as [n outcome|ev payload|n|n|c]; cbn in Hstep.
  - now elim (Hl n outcome).
  - destruct (listening ev s); [|discriminate].
    injection Hstep as <-.
    apply (dispatch_related quiet quiet_refl quiet_trans).
    intros s0. apply quiet_finish. apply quietly_listener.
  - destruct (nth_error (timers s) n) as [t|]; [|discriminate].
    injection Hstep as <-.
    eapply quiet_trans; [|apply quiet_finish; apply quietly_run_timer].
    now apply quiet_same.
  - destruct (dismissible n s); [|discriminate].
    injection Hstep as <-. now apply quiet_same.
  - injection Hstep as <-. apply quiet_finish. apply quietly_invoke.
Qed.

(** *** The flag never goes back *)

Lemma step_keeps_ready (e : env) (l : label) (s s' : state) :
  step e l s = Some s' ->
  isInitialized s = true ->
  isInitialized s' = true.
Proof.
  intros Hstep Hready.
  destruct l as [n outcome|ev payload|n|n|c];
    try (apply (step_quiet e _ s s') in Hstep; [|intros; discriminate];
         destruct Hstep as [Hflag _]; congruence).
  cbn in Hstep. destruct (nth_error (pending s) n) as [p|]; [|discriminate].
  injection Hstep as <-.
  match goal with
  | |- isInitialized (finish (resume ?k ?o ?e ?s2)) = true =>
      assert (H2 : isInitialized s2 = true) by exact Hready;
      destruct (resume_cases k o e s2)
        as [[Hflag _]|[(v & _ & _ & ->)|(ev & v & _ & _ & ->)]]
  end.
  - congruence.
  - exact H2.
  - destruct (next_listener ev); [exact H2 | reflexivity].
Qed.

Lemma run_keeps_ready (steps : list (env * label)) (s s' : state) :
  run steps s = Some s' ->
  isInitialized s = true ->
  isInitialized s' = true.
Proof.
  revert s. induction steps as [|[e l] rest IH]; intros s Hrun Hready; cbn in Hrun.
  - now injection Hrun as <-.
  - destruct (step e l s) as [s1|] eqn:Hstep; [|discriminate].
    apply (IH s1 Hrun). exact (step_keeps_ready e l s s1 Hstep Hready).
Qed.

(** *** The flag is raised only after the four registrations *)

(** The plugin has resolved the [addListener] call for [ev]. *)
Definition resolved (ev : event) (tr : list effect) : Prop :=
  exists v, In (settled (addListener ev) (Resolved v)) tr.

(** The order in which [initialize] attaches its listeners. *)
Definition event_index (ev : event) : nat :=
  match ev with
  | registration => 0
  | registrationError => 1
  | pushNotificationReceived => 2
  | pushNotificationActionPerformed => 3
  end.

(** An [initialize] parked at the listener for [ev] waits for that very
    call, and the calls for the listeners before [ev] have resolved. *)
Definition parked_ok (tr : list effect) (p : suspended) : Prop :=
  forall ev,
    resume_at p = initialize_at (after_addListener ev) ->
    awaited_call p = addListener ev /\
    forall ev', event_index ev' < event_index ev -> resolved ev' tr.

Definition guarded (s : state) : Prop :=
  (isInitialized s = true -> forall ev, resolved ev (trace s)) /\
  Forall (parked_ok (trace s)) (pending s).

Lemma resolved_app (ev : event) (tr tr' : list effect) :
  resolved ev tr -> resolved ev (tr ++ tr').
Proof. intros [v Hv]. exists v. apply in_or_app. now left. Qed.

Lemma parked_ok_app (tr tr' : list effect) (p : suspended) :
  parked_ok tr p -> parked_ok (tr ++ tr') p.
Proof.
  intros Hp ev Hev. destruct (Hp ev Hev) as [Hcall Hbefore]. split; [exact Hcall|].
  intros ev' Hlt. apply resolved_app. now apply Hbefore.
Qed.

Lemma Forall_remove_nth {A} (P : A -> Prop) (n : nat) (l : list A) :
  Forall P l -> Forall P (remove_nth n l).
Proof.
  intros H. revert n. induction H as [|x l Hx Hl IH]; intros [|n]; cbn.
  - constructor.
  - constructor.
  - exact Hl.
  - constructor; [exact Hx | apply IH].
Qed.

Lemma guarded_quiet (s s' : state) : guarded s -> quiet s s' -> guarded s'.
Proof.
  intros [Hready Hparked] (Hflag & [tr Htr] & [ps [Hps Hquiet]]).
  unfold guarded. rewrite Hflag, Htr, Hps. split.
  - intros H ev. apply resolved_app. now apply Hready.
  - apply Forall_app. split.
    + eapply Forall_impl; [|exact Hparked]. intros p. apply parked_ok_app.
    + eapply Forall_impl; [|exact Hquiet].
      intros p Hp ev Hev. elim Hp. now exists ev.
Qed.

Lemma guarded_settling (n : nat) (p : suspended) (outcome : settle) (s : state) :
  guarded s -> guarded (settling n p outcome s).
Proof.
  intros [Hready Hparked]. split; cbn.
  - intros H ev. apply resolved_app. now apply Hready.
  - apply Forall_remove_nth.
    eapply Forall_impl; [|exact Hparked]. intros q. apply parked_ok_app.
Qed.

Lemma guarded_adding (ev : event) (s : state) :
  guarded s ->
  (forall ev', event_index ev' < event_index ev -> resolved ev' (trace s)) ->
  guarded (adding ev s).
Proof.
  intros [Hready Hparked] Hbefore. split; cbn.
  - intros H ev'. apply resolved_app. now apply Hready.
  - apply Forall_app. split.
    + eapply Forall_impl; [|exact Hparked]. intros q. apply parked_ok_app.
    + constructor; [|constructor]. intros ev0 Hev0. cbn in Hev0.
      injection Hev0 as <-. split; [reflexivity|].
      intros ev' Hlt. apply resolved_app. now apply Hbefore.
Qed.

Lemma guarded_ready (s : state) :
  guarded s ->
  (forall ev, resolved ev (trace s)) ->
  guarded (emitting [ready_notice] (set_isInitialized true s)).
Proof.
  intros [Hready Hparked] Hall. split; cbn.
  - intros _ ev. apply resolved_app. apply Hall.
  - eapply Forall_impl; [|exact Hparked]. intros q. apply parked_ok_app.
Qed.

Lemma event_index_inj (a b : event) : event_index a = event_index b -> a = b.
Proof. destruct a, b; cbn; intros H; try discriminate; reflexivity. Qed.

(** When the call for [ev] resolves, the calls up to and including [ev]
    have resolved. *)
Lemma resolved_up_to
    (n : nat) (p : suspended) (v : value) (s : state) (ev : event) :
  parked_ok (trace s) p ->
  resume_at p = initialize_at (after_addListener ev) ->
  forall ev', event_index ev' <= event_index ev ->
              resolved ev' (trace (settling n p (Resolved v) s)).
Proof.
  intros Hp Hev ev' Hle. destruct (Hp ev Hev) as [Hcall Hbefore]. cbn.
  destruct (Nat.eq_dec (event_index ev') (event_index ev)) as [Heq|Hne].
  - apply event_index_inj in Heq. subst ev'. exists v.
    apply in_or_app. right. rewrite Hcall. now left.
  - apply resolved_app. apply Hbefore. lia.
Qed.

Lemma guarded_step (e : env) (l : label) (s s' : state) :
  guarded s -> step e l s = Some s' -> guarded s'.
Proof.
  intros Hg Hstep.
  destruct l as [n outcome|ev payload|n|n|c];
    try (apply (guarded_quiet s s' Hg);
         eapply step_quiet; [|exact Hstep]; intros; discriminate).
  destruct (nth_error (pending s) n) as [p|] eqn:Hp;
    [|cbn in Hstep; rewrite Hp in Hstep; discriminate].
  rewrite (step_settle e n outcome s p Hp) in Hstep. injection Hstep as <-.
  assert (Hparked : parked_ok (trace s) p).
  { destruct Hg as [_ Hall]. rewrite Forall_forall in Hall.
    apply Hall. eapply nth_error_In. exact Hp. }
  pose proof (guarded_settling n p outcome s Hg) as Hg2.
  destruct (resume_cases (resume_at p) outcome e (settling n p outcome s))
    as [Hquiet|[(v & Hk & -> & ->)|(ev & v & Hk & -> & ->)]].
  - exact (guarded_quiet _ _ Hg2 Hquiet).
  - apply guarded_adding; [exact Hg2|]. cbn. intros ev' Hlt. lia.
  - pose proof (resolved_up_to n p v s ev Hparked Hk) as Hup.
    destruct ev; cbn [next_listener];
      (apply guarded_adding || apply guarded_ready); try exact Hg2;
      intros ev'; try intros Hlt; apply Hup;
      destruct ev'; cbn in *; lia.
Qed.

Lemma guarded_run (steps : list (env * label)) (s s' : state) :
  guarded s -> run steps s = Some s' -> guarded s'.
Proof.
  revert s. induction steps as [|[e l] rest IH]; intros s Hg Hrun; cbn in Hrun.
  - now injection Hrun as <-.
  - destruct (step e l s) as [s1|] eqn:Hstep; [|discriminate].
    apply (IH s1); [|exact Hrun]. exact (guarded_step e l s s1 Hg Hstep).
Qed.

(** What the constructor leaves of any page that was guarded. *)
Lemma constructor_not_ready (e : env) (s : state) :
  isInitialized (snd (constructor e s)) = false.
Proof.
  unfold constructor, bind, modify.
  destruct (quietly_initialize e
              (set_deviceToken VNull (set_isInitialized false s))) as [Hflag _].
  exact Hflag.
Qed.

Lemma guarded_loaded (e : env) (href : string) : guarded (loaded e href).
Proof.
  destruct (isNativePlatform e) eqn:Hnative.
  - rewrite (loaded_native e href Hnative). split; cbn; [discriminate|].
    constructor; [|constructor]. intros ev Hev. discriminate.
  - rewrite (loaded_web e href Hnative).
    split; cbn; [discriminate | constructor].
Qed.

(** C9.  The constructor leaves the ready flag false.  From the loaded
    module on, whatever the host does (settling promises, delivering events,
    expiring timers, dismissing banners, calling any method of the exported
    object), the flag is true only when the plugin has resolved the
    [addListener] call of each of the four events; and from any state, no
    run of host steps takes the flag from true back to false. *)
Theorem isInitialized_raised_once :
  (forall e s, isInitialized (snd (constructor e s)) = false) /\
  (forall e href steps s,
      run steps (loaded e href) = Some s ->
      isInitialized s = true ->
      forall ev, resolved ev (trace s)) /\
  (forall steps s s',
      run steps s = Some s' ->
      isInitialized s = true ->
      isInitialized s' = true).
Proof.
  split; [exact constructor_not_ready|]. split.
  - intros e href steps s Hrun Hready.
    destruct (guarded_run steps _ s (guarded_loaded e href) Hrun) as [Hg _].
    exact (Hg Hready).
  - exact run_keeps_ready.
Qed.

(** A run in which every call of [initialize] resolves, and a token event
    after it. *)
Definition granted_run : list (env * label) :=
  [(android_host None, Settle 0 (Resolved (permission "granted")));
   (android_host None, Settle 0 (Resolved VUndefined));
   (android_host None, Settle 0 (Resolved handle));
   (android_host None, Settle 0 (Resolved handle));
   (android_host None, Settle 0 (Resolved handle));
   (android_host None, Settle 0 (Resolved handle))].

Definition ready_page : state :=
  mkState true VNull app_href 0 [] [] [] four_listeners []
    [call checkPermissions; module_notice;
     settled checkPermissions (Resolved (permission "granted"));
     call register; settled register (Resolved VUndefined);
     call (addListener registration);
     settled (addListener registration) (Resolved handle);
     call (addListener registrationError);
     settled (addListener registrationError) (Resolved handle);
     call (addListener pushNotificationReceived);
     settled (addListener pushNotificationReceived) (Resolved handle);
     call (addListener pushNotificationActionPerformed);
     settled (addListener pushNotificationActionPerformed) (Resolved handle);
     ready_notice].

Definition after_token : list (env * label) :=
  [(android_host None, Deliver registration token_T1);
   (android_host None, Settle 0 (Rejected (NativeError "TypeError")));
   (android_host None, Invoke call_initialize)].

Lemma isInitialized_raised_once_witness :
  isInitialized (snd (constructor (android_host None) ready_page)) = false /\
  (forall ev, resolved ev (trace ready_page)) /\
  (exists s', run after_token ready_page = Some s' /\ isInitialized s' = true).
Proof.
  destruct isInitialized_raised_once as (Hnew & Hguard & Hkeep).
  split; [apply Hnew|]. split.
  - apply (Hguard (android_host None) app_href granted_run ready_page);
      reflexivity.
  - destruct (run after_token ready_page) as [s'|] eqn:Hrun;
      [|discriminate Hrun].
    exists s'. split; [reflexivity|].
    apply (Hkeep after_token ready_page s' Hrun). reflexivity.
Defined.

(** * Further properties of the script *)

(** ** No exception escapes the guarded methods *)

(** [m] returns normally from every state. *)
Definition safe {A} (m : M A) : Prop :=
  forall e s, exists a, fst (m e s) = Ok a.

Lemma safe_ret {A} (a : A) : safe (ret a).
Proof. intros e s. now exists a. Qed.

Lemma safe_asks {A} (f : env -> A) : safe (asks f).
Proof. intros e s. now exists (f e). Qed.

Lemma safe_gets {A} (f : state -> A) : safe (gets f).
Proof. intros e s. now exists (f s). Qed.

Lemma safe_modify (f : state -> state) : safe (modify f).
Proof. intros e s. now exists tt. Qed.

Lemma safe_bind {A B} (m : M A) (k : A -> M B) :
  safe m -> (forall a, safe (k a)) -> safe (bind m k).
Proof.
  intros Hm Hk e s. unfold bind. destruct (Hm e s) as [a Ha].
  destruct (m e s) as [[a'|x] s1]; cbn in Ha; [|discriminate]. apply Hk.
Qed.

(** A [try] block is safe as soon as its handler is, whatever it guards. *)
Lemma safe_try_catch {A} (m : M A) (h : exn -> M A) :
  (forall x, safe (h x)) -> safe (try_catch m h).
Proof.
  intros Hh e s. unfold try_catch.
  destruct (m e s) as [[a|x] s1]; [now exists a | apply Hh].
Qed.

Lemma safe_emit (x : effect) : safe (emit x).
Proof. apply safe_modify. Qed.

Lemma safe_await (a : awaitable) (k : continuation) : safe (await a k).
Proof.
  apply safe_bind; [apply safe_emit | intros _; apply safe_modify].
Qed.

Lemma safe_unit (m : M unit) (e : env) (s : state) :
  safe m -> fst (m e s) = Ok tt.
Proof. intros Hm. destruct (Hm e s) as [[] H]. exact H. Qed.

Lemma safe_initialize_resume (k : initialize_await) (outcome : settle) :
  safe (initialize_resume k outcome).
Proof.
  unfold initialize_resume, initialize_catch. apply safe_try_catch.
  intros x. apply safe_emit.
Qed.

Lemma safe_sendTokenToServer_resume (outcome : settle) :
  safe (sendTokenToServer_resume outcome).
Proof.
  unfold sendTokenToServer_resume, sendTokenToServer_catch.
  apply safe_try_catch. intros x. apply safe_emit.
Qed.

Lemma safe_trackNotificationEvent_resume (outcome : settle) :
  safe (trackNotificationEvent_resume outcome).
Proof. destruct outcome; [apply safe_ret | apply safe_emit]. Qed.

Lemma safe_resume (k : continuation) (outcome : settle) : safe (resume k outcome).
Proof.
  destruct k; cbn [resume].
  - apply safe_initialize_resume.
  - apply safe_sendTokenToServer_resume.
  - apply safe_trackNotificationEvent_resume.
Qed.

(** X1.  Nothing thrown inside [initialize], [sendTokenToServer],
    [trackNotificationEvent] or [getUserInfo] leaves the method, before or
    after an [await] and whatever the host answers: each returns normally, so
    no promise of the script is ever rejected unhandled. *)
Theorem no_exception_escapes :
  (forall k outcome e s, fst (resume k outcome e s) = Ok tt) /\
  (forall e s, fst (initialize e s) = Ok tt) /\
  (forall token e s, fst (sendTokenToServer token e s) = Ok tt) /\
  (forall action n e s, fst (trackNotificationEvent action n e s) = Ok tt) /\
  (forall e s, exists userInfo, fst (getUserInfo e s) = Ok userInfo).
Proof.
  repeat split.
  - intros k outcome e s. apply safe_unit, safe_resume.
  - intros e s. apply safe_unit. unfold initialize.
    apply safe_bind; [apply safe_asks|]. intros native.
    destruct (negb native); [apply safe_emit|].
    apply safe_try_catch. intros x. apply safe_emit.
  - intros token e s. apply safe_unit.
    apply safe_try_catch. intros x. apply safe_emit.
  - intros action n e s. apply safe_unit.
    apply safe_try_catch. intros x. apply safe_emit.
  - unfold getUserInfo. apply safe_bind.
    + apply safe_try_catch. intros x.
      apply safe_bind; [apply safe_emit | intros _; apply safe_ret].
    + intros [parsed|]; apply safe_ret.
Qed.

(** ** initialize: failures and the short path *)

(** X2.  When the host rejects the promise that [initialize] is parked at,
    at any of its seven awaits, the method ends in its [catch] block: it
    writes the failure line with the reason and nothing else; the flag, the
    listeners and the page are as they were and nothing new is parked. *)
Theorem initialize_rejection_logged
    (e : env) (n : nat) (x : exn) (s : state) (p : suspended)
    (k : initialize_await) :
  nth_error (pending s) n = Some p ->
  resume_at p = initialize_at k ->
  step e (Settle n (Rejected x)) s =
    Some (mkState (isInitialized s) (deviceToken s) (location_href s)
            (next_node s) (document_head s) (document_body s) (timers s)
            (listeners s) (remove_nth n (pending s))
            ((trace s ++ [settled (awaited_call p) (Rejected x)]) ++
             [failed_notice x])).
Proof.
  intros Hp Hk. rewrite (step_settle e n (Rejected x) s p Hp), Hk.
  cbn [resume]. now rewrite initialize_rejected.
Qed.

Lemma initialize_rejection_logged_witness :
  step (android_host None) (Settle 0 (Rejected play_services_missing))
    (loaded (android_host None) app_href) =
    Some (mkState false VNull app_href 0 [] [] [] [] []
            [call checkPermissions; module_notice;
             settled checkPermissions (Rejected play_services_missing);
             failed_notice play_services_missing]).
Proof.
  apply (initialize_rejection_logged (android_host None) 0
           play_services_missing (loaded (android_host None) app_href)
           (mkSuspended checkPermissions (initialize_at after_checkPermissions))
           after_checkPermissions); reflexivity.
Defined.

(** X3.  A permission answer that cannot be read for [receive] (the check
    or the request resolving with [null] or [undefined]) is a failure like
    any other: the read throws inside the [try] block, the failure line is
    written, [register] is not called and the flag stays as it was. *)
Theorem initialize_unreadable_permission
    (e : env) (s : state) (p : value) (x : exn) :
  get p "receive" = Throw x ->
  initialize_resume after_checkPermissions (Resolved p) e s =
    (Ok tt, emitting [failed_notice x] s) /\
  initialize_resume after_requestPermissions (Resolved p) e s =
    (Ok tt, emitting [failed_notice x] s).
Proof.
  intros Hp.
  split; unfold initialize_resume, initialize_catch, try_catch, bind, lift,
    awaited, ret, initialize_with_permission; now reads.
Qed.

Lemma initialize_unreadable_permission_witness :
  initialize_resume after_checkPermissions (Resolved VNull)
      (android_host None) (loaded (android_host None) app_href) =
    (Ok tt, emitting [failed_notice TypeError]
              (loaded (android_host None) app_href)) /\
  initialize_resume after_requestPermissions (Resolved VNull)
      (android_host None) (loaded (android_host None) app_href) =
    (Ok tt, emitting [failed_notice TypeError]
              (loaded (android_host None) app_href)).
Proof.
  apply (initialize_unreadable_permission (android_host None)
           (loaded (android_host None) app_href) VNull TypeError).
  reflexivity.
Defined.

(** X4.  When the check already reports [granted], [initialize] goes
    straight to [register]: [requestPermissions] is never called. *)
Theorem initialize_granted_without_prompt
    (e0 e1 : env) (href : string) (p : value) :
  isNativePlatform e0 = true ->
  get p "receive" = Ok (VString "granted") ->
  run [(e1, Settle 0 (Resolved p))] (loaded e0 href) =
    Some (mkState false VNull href 0 [] [] [] []
            [mkSuspended register (initialize_at after_register)]
            [call checkPermissions; module_notice;
             settled checkPermissions (Resolved p);
             call register]).
Proof.
  intros Hnative Hp. rewrite (loaded_native e0 href Hnative). cbn.
  now rewrite (initialize_checked_granted p _ _ Hp).
Qed.

Lemma initialize_granted_without_prompt_witness :
  run [(android_host None, Settle 0 (Resolved (permission "granted")))]
      (loaded (android_host None) app_href) =
    Some (mkState false VNull app_href 0 [] [] [] []
            [mkSuspended register (initialize_at after_register)]
            [call checkPermissions; module_notice;
             settled checkPermissions (Resolved (permission "granted"));
             call register]).
Proof.
  apply (initialize_granted_without_prompt (android_host None)
           (android_host None) app_href (permission "granted")); reflexivity.
Defined.

(** ** What each part of the script leaves alone *)

(** The field [f] is the same after as before. *)
Definition keeps {A} (f : state -> A) (s s' : state) : Prop := f s' = f s.

Lemma keeps_refl {A} (f : state -> A) (s : state) : keeps f s s.
Proof. reflexivity. Qed.

Lemma keeps_trans {A} (f : state -> A) (a b c : state) :
  keeps f a b -> keeps f b c -> keeps f a c.
Proof. unfold keeps. congruence. Qed.

Lemma keeps_finish {A} (f : state -> A) (s : state) (r : result unit * state) :
  (forall t s0, f (set_trace t s0) = f s0) ->
  keeps f s (snd r) -> keeps f s (finish r).
Proof.
  intros Hf. destruct r as [[u|x] s1]; cbn; [trivial|].
  unfold keeps. intros H. now rewrite Hf.
Qed.

Lemma dispatch_keeps {A} (f : state -> A) (m : M unit) (e : env) :
  (forall t s0, f (set_trace t s0) = f s0) ->
  preserves (keeps f) m ->
  forall k s, keeps f s (dispatch k m e s).
Proof.
  intros Hf Hm.
  apply (dispatch_related (keeps f) (keeps_refl f) (keeps_trans f)).
  intros s. apply (keeps_finish f); [exact Hf | apply Hm].
Qed.

Lemma listening_callbacks (ev : event) (s : state) :
  listening ev s = true -> exists k, callbacks ev s = S k.
Proof.
  unfold listening, callbacks.
  induction (listeners s) as [|ev' rest IH]; cbn; [discriminate|].
  destruct (event_eqb ev ev'); cbn; [intros _; eexists; reflexivity | exact IH].
Qed.

Ltac keeps_side := first [ exact (keeps_refl _) | exact (keeps_trans _) ].

(** Unfolds the methods down to the monad's primitives and takes the result
    apart; a write to the field in question leaves its goal open. *)
Ltac keeps_tac :=
  unfold invoke, listener, resume, run_timer, discard, getDeviceToken, isReady,
    initialize_resume, initialize, initialize_finish, initialize_with_permission,
    initialize_catch, PushNotifications_addListener,
    handleNotificationReceived, handleNotificationTapped, showInAppNotification,
    navigateToKedai, navigateToPhotoHunt, navigateToBusinessDashboard,
    navigateToPromotion, navigateToHome, navigate,
    trackNotificationEvent, trackNotificationEvent_resume,
    sendTokenToServer, sendTokenToServer_resume, sendTokenToServer_catch,
    getUserInfo, createElement, head_appendChild, body_appendChild, setTimeout,
    console_log, console_warn, console_error, await, emit, remove_node;
  repeat first
    [ apply preserves_ret; keeps_side
    | apply preserves_throw; keeps_side
    | apply preserves_lift; keeps_side
    | apply preserves_host; keeps_side
    | apply preserves_asks; keeps_side
    | apply preserves_gets; keeps_side
    | apply preserves_awaited; keeps_side
    | apply preserves_bind; [keeps_side .. | idtac | intros ?]
    | apply preserves_try_catch; [keeps_side .. | idtac | intros ?]
    | apply preserves_if; [keeps_side .. | idtac | idtac]
    | apply preserves_modify; intros ?; reflexivity
    | match goal with
      | |- preserves _ (match ?x with _ => _ end) => destruct x
      end ].

Lemma resume_keeps_deviceToken (k : continuation) (outcome : settle) :
  preserves (keeps deviceToken) (resume k outcome).
Proof. destruct k; keeps_tac. Qed.

Lemma invoke_keeps_deviceToken (c : invocation) :
  preserves (keeps deviceToken) (invoke c).
Proof. destruct c; keeps_tac. Qed.

Lemma run_timer_keeps_deviceToken (cb : timer_callback) :
  preserves (keeps deviceToken) (run_timer cb).
Proof. destruct cb; keeps_tac. Qed.

Lemma sendTokenToServer_keeps_deviceToken (token : value) :
  preserves (keeps deviceToken) (sendTokenToServer token).
Proof. keeps_tac. Qed.

Lemma listener_keeps_deviceToken (ev : event) (payload : value) :
  ev <> registration ->
  preserves (keeps deviceToken) (listener ev payload).
Proof. intros Hev. destruct ev; [now elim Hev| | |]; keeps_tac. Qed.

(** A delivery of the registration event. *)
Definition is_registration (l : label) : bool :=
  match l with
  | Deliver registration _ => true
  | _ => false
  end.

Lemma step_keeps_deviceToken (e : env) (l : label) (s s' : state) :
  is_registration l = false ->
  step e l s = Some s' ->
  deviceToken s' = deviceToken s.
Proof.
  intros Hl Hstep. destruct l as [n outcome|ev payload|n|n|c]; cbn in Hstep.
  - destruct (nth_error (pending s) n) as [p|]; [|discriminate].
    injection Hstep as <-.
    apply (keeps_finish deviceToken); [reflexivity|].
    apply (keeps_trans deviceToken _
             (set_trace (trace s ++ [settled (awaited_call p) outcome])
                (set_pending (remove_nth n (pending s)) s)));
      [reflexivity | apply resume_keeps_deviceToken].
  - destruct (listening ev s); [|discriminate]. injection Hstep as <-.
    apply (dispatch_keeps deviceToken); [reflexivity|].
    apply listener_keeps_deviceToken. intros ->. discriminate.
  - destruct (nth_error (timers s) n) as [t|]; [|discriminate].
    injection Hstep as <-.
    apply (keeps_finish deviceToken); [reflexivity|].
    apply (keeps_trans deviceToken _ (set_timers (remove_nth n (timers s)) s));
      [reflexivity | apply run_timer_keeps_deviceToken].
  - destruct (dismissible n s); [|discriminate]. now injection Hstep as <-.
  - injection Hstep as <-.
    apply (keeps_finish deviceToken); [reflexivity|].
    apply invoke_keeps_deviceToken.
Qed.

(** No step of the run delivers a registration event. *)
Definition without_registration (steps : list (env * label)) : bool :=
  forallb (fun el => negb (is_registration (snd el))) steps.

Lemma run_keeps_deviceToken (steps : list (env * label)) (s s' : state) :
  without_registration steps = true ->
  run steps s = Some s' ->
  deviceToken s' = deviceToken s.
Proof.
  revert s. induction steps as [|[e l] rest IH]; intros s Hsteps Hrun;
    cbn in Hrun, Hsteps.
  - now injection Hrun as <-.
  - apply andb_true_iff in Hsteps. destruct Hsteps as [Hl Hrest].
    apply negb_true_iff in Hl.
    destruct (step e l s) as [s1|] eqn:Hstep; [|discriminate].
    rewrite (IH s1 Hrest Hrun). exact (step_keeps_deviceToken e l s s1 Hl Hstep).
Qed.

(** X5.  [getDeviceToken] returns the value of the most recent registration
    event: the listener stores it whether or not the token could be
    forwarded, and until the next registration event nothing the host does
    (settlements, other events, timers, dismissals, calls of any method)
    changes it. *)
Theorem deviceToken_is_latest_registration
    (e0 e1 : env) (tok v : value) (steps : list (env * label))
    (s s1 s2 : state) :
  get tok "value" = Ok v ->
  step e0 (Deliver registration tok) s = Some s1 ->
  without_registration steps = true ->
  run steps s1 = Some s2 ->
  getDeviceToken e1 s2 = (Ok v, s2).
Proof.
  intros Htok Hstep Hsteps Hrun.
  unfold getDeviceToken, gets. f_equal. f_equal.
  rewrite (run_keeps_deviceToken steps s1 s2 Hsteps Hrun).
  assert (Hstored : forall s0,
             deviceToken (finish (listener registration tok e0 s0)) = v).
  { intros s0. rewrite (listener_registration tok v e0 s0 Htok).
    exact (keeps_finish deviceToken _ _ (fun _ _ => eq_refl)
             (sendTokenToServer_keeps_deviceToken v e0
                (set_deviceToken v (emitting [registration_notice v] s0)))). }
  assert (Hlater : forall k s0,
             deviceToken s0 = v ->
             deviceToken (dispatch k (listener registration tok) e0 s0) = v).
  { intros k. induction k as [|k IH]; intros s0 H0; cbn [dispatch];
      [exact H0 | apply IH, Hstored]. }
  unfold step in Hstep.
  destruct (listening registration s) eqn:Hlistening; [|discriminate].
  injection Hstep as <-.
  destruct (listening_callbacks registration s Hlistening) as [k ->].
  cbn [dispatch]. apply Hlater, Hstored.
Qed.

Definition response_ok : value :=
  VObject [("ok", VBool true); ("status", VNum (mkNumber true "200"))].

Definition after_registration : list (env * label) :=
  [(android_host None, Settle 0 (Resolved response_ok));
   (android_host None, Deliver pushNotificationReceived hi_there);
   (android_host None, Deliver pushNotificationActionPerformed tap_kedai_42);
   (android_host None, Fire 0)].

(** The ready page after a registration event with token T1, and after the
    steps above. *)
Definition token_page : state :=
  Eval vm_compute in
    match step (android_host None) (Deliver registration token_T1) ready_page with
    | Some s => s
    | None => ready_page
    end.

Definition later_page : state :=
  Eval vm_compute in
    match run after_registration token_page with
    | Some s => s
    | None => token_page
    end.

Lemma deviceToken_is_latest_registration_witness :
  step (android_host None) (Deliver registration token_T1) ready_page =
    Some token_page /\
  run after_registration token_page = Some later_page /\
  getDeviceToken (android_host None) later_page = (Ok (VString "T1"), later_page).
Proof.
  assert (H1 : step (android_host None) (Deliver registration token_T1)
                 ready_page = Some token_page) by (vm_compute; reflexivity).
  assert (H2 : run after_registration token_page = Some later_page)
    by (vm_compute; reflexivity).
  split; [exact H1|]. split; [exact H2|].
  exact (deviceToken_is_latest_registration (android_host None)
           (android_host None) token_T1 (VString "T1") after_registration
           ready_page token_page later_page eq_refl H1 eq_refl H2).
Defined.

(** Steps that can navigate: a tap delivered by the plugin, or another
    script calling the tap handler or a navigation helper. *)
Definition navigates (l : label) : bool :=
  match l with
  | Deliver pushNotificationActionPerformed _ => true
  | Invoke (call_handleNotificationTapped _)
  | Invoke (call_navigateToKedai _)
  | Invoke (call_navigateToPhotoHunt _)
  | Invoke call_navigateToBusinessDashboard
  | Invoke (call_navigateToPromotion _)
  | Invoke call_navigateToHome => true
  | _ => false
  end.

Lemma resume_keeps_location (k : continuation) (outcome : settle) :
  preserves (keeps location_href) (resume k outcome).
Proof. destruct k; keeps_tac. Qed.

Lemma run_timer_keeps_location (cb : timer_callback) :
  preserves (keeps location_href) (run_timer cb).
Proof. destruct cb; keeps_tac. Qed.

Lemma listener_keeps_location (ev : event) (payload : value) :
  ev <> pushNotificationActionPerformed ->
  preserves (keeps location_href) (listener ev payload).
Proof. intros Hev. destruct ev; [| | |now elim Hev]; keeps_tac. Qed.

Lemma invoke_keeps_location (c : invocation) :
  navigates (Invoke c) = false ->
  preserves (keeps location_href) (invoke c).
Proof. intros Hc. destruct c; try discriminate Hc; keeps_tac. Qed.

(** X6.  The location changes only on a tap: settling any promise (a
    permission answer, a token or analytics response), a registration, a
    registration error, a notification received in the foreground, a timer
    and a dismissal all leave [window.location.href] as it was. *)
Theorem location_changes_only_on_tap (e : env) (l : label) (s s' : state) :
  navigates l = false ->
  step e l s = Some s' ->
  location_href s' = location_href s.
Proof.
  intros Hl Hstep. destruct l as [n outcome|ev payload|n|n|c];
    unfold step in Hstep.
  - destruct (nth_error (pending s) n) as [p|]; [|discriminate].
    injection Hstep as <-.
    exact (keeps_finish location_href _ _ (fun _ _ => eq_refl)
             (resume_keeps_location (resume_at p) outcome e _)).
  - destruct (listening ev s); [|discriminate]. injection Hstep as <-.
    apply (dispatch_keeps location_href); [reflexivity|].
    apply listener_keeps_location. intros ->. discriminate.
  - destruct (nth_error (timers s) n) as [t|]; [|discriminate].
    injection Hstep as <-.
    exact (keeps_finish location_href _ _ (fun _ _ => eq_refl)
             (run_timer_keeps_location (callback t) e _)).
  - destruct (dismissible n s); [|discriminate]. now injection Hstep as <-.
  - injection Hstep as <-.
    apply (keeps_finish location_href); [reflexivity|].
    now apply invoke_keeps_location.
Qed.

Definition banner_page : state :=
  Eval vm_compute in
    match step (android_host None) (Deliver pushNotificationReceived hi_there)
            ready_page with
    | Some s => s
    | None => ready_page
    end.

Lemma location_changes_only_on_tap_witness :
  step (android_host None) (Deliver pushNotificationReceived hi_there)
    ready_page = Some banner_page /\
  location_href banner_page = location_href ready_page.
Proof.
  assert (H : step (android_host None)
                (Deliver pushNotificationReceived hi_there) ready_page =
              Some banner_page) by (vm_compute; reflexivity).
  split; [exact H|].
  exact (location_changes_only_on_tap (android_host None)
           (Deliver pushNotificationReceived hi_there) ready_page banner_page
           eq_refl H).
Defined.

(** Steps that can change the document: a notification received in the
    foreground, a timer, a dismissal, or another script calling the banner
    code. *)
Definition draws (l : label) : bool :=
  match l with
  | Deliver pushNotificationReceived _ => true
  | Fire _ | Dismiss _ => true
  | Invoke (call_handleNotificationReceived _)
  | Invoke (call_showInAppNotification _) => true
  | _ => false
  end.

(** The part of the state the banner code owns. *)
Definition document (s : state) : list element * list element * list timer * nat :=
  (document_head s, document_body s, timers s, next_node s).

Lemma resume_keeps_document (k : continuation) (outcome : settle) :
  preserves (keeps document) (resume k outcome).
Proof. destruct k; keeps_tac. Qed.

Lemma listener_keeps_document (ev : event) (payload : value) :
  ev <> pushNotificationReceived ->
  preserves (keeps document) (listener ev payload).
Proof. intros Hev. destruct ev; [| |now elim Hev|]; keeps_tac. Qed.

Lemma invoke_keeps_document (c : invocation) :
  draws (Invoke c) = false ->
  preserves (keeps document) (invoke c).
Proof. intros Hc. destruct c; try discriminate Hc; keeps_tac. Qed.

Lemma step_keeps_document (e : env) (l : label) (s s' : state) :
  draws l = false ->
  step e l s = Some s' ->
  document s' = document s.
Proof.
  intros Hl Hstep.
  destruct l as [n outcome|ev payload|n|n|c]; try discriminate Hl;
    unfold step in Hstep.
  - destruct (nth_error (pending s) n) as [p|]; [|discriminate].
    injection Hstep as <-.
    exact (keeps_finish document _ _ (fun _ _ => eq_refl)
             (resume_keeps_document (resume_at p) outcome e _)).
  - destruct (listening ev s); [|discriminate]. injection Hstep as <-.
    apply (dispatch_keeps document); [reflexivity|].
    apply listener_keeps_document. intros ->. discriminate.
  - injection Hstep as <-.
    apply (keeps_finish document); [reflexivity|].
    now apply invoke_keeps_document.
Qed.

(** X7.  The document changes only for a banner: settlements,
    registrations, registration errors and taps add no element to the head
    or the body, remove none, and schedule no timer. *)
Theorem document_changes_only_for_banner (e : env) (l : label) (s s' : state) :
  draws l = false ->
  step e l s = Some s' ->
  document_head s' = document_head s /\
  document_body s' = document_body s /\
  timers s' = timers s.
Proof.
  intros Hl Hstep.
  pose proof (step_keeps_document e l s s' Hl Hstep) as H.
  unfold document in H. now injection H.
Qed.

Definition kedai_page : state :=
  Eval vm_compute in
    match step (android_host None)
            (Deliver pushNotificationActionPerformed tap_kedai_42) ready_page with
    | Some s => s
    | None => ready_page
    end.

Lemma document_changes_only_for_banner_witness :
  step (android_host None)
    (Deliver pushNotificationActionPerformed tap_kedai_42) ready_page =
    Some kedai_page /\
  document_head kedai_page = document_head ready_page /\
  document_body kedai_page = document_body ready_page /\
  timers kedai_page = timers ready_page.
Proof.
  assert (H : step (android_host None)
                (Deliver pushNotificationActionPerformed tap_kedai_42)
                ready_page = Some kedai_page) by (vm_compute; reflexivity).
  split; [exact H|].
  exact (document_changes_only_for_banner (android_host None)
           (Deliver pushNotificationActionPerformed tap_kedai_42)
           ready_page kedai_page eq_refl H).
Defined.

(** ** Network outcomes *)

Lemma sendTokenToServer_resume_logs (outcome : settle) (e : env) (s : state) :
  exists l args,
    sendTokenToServer_resume outcome e s = (Ok tt, emitting [console l args] s).
Proof.
  unfold sendTokenToServer_resume, sendTokenToServer_catch, try_catch, bind,
    lift, awaited.
  destruct outcome as [response|x]; [|do 2 eexists; reflexivity].
  cbn. destruct (get response "ok") as [ok|x]; [|do 2 eexists; reflexivity].
  destruct (truthy ok); [do 2 eexists; reflexivity|].
  destruct (get response "status") as [st|x]; do 2 eexists; reflexivity.
Qed.

Definition is_console (x : effect) : Prop := exists l args, x = console l args.

(** X8.  The outcome of a token POST or of an analytics POST, whatever it
    is (any response, any rejection), ends in at most one console line: the
    request is not sent again, nothing new is parked, and the flag, the
    token, the location, the document and the listeners are as they were. *)
Theorem fetch_outcome_only_logs
    (e : env) (n : nat) (outcome : settle) (s : state) (p : suspended) :
  nth_error (pending s) n = Some p ->
  resume_at p = sendTokenToServer_after_fetch \/
  resume_at p = trackNotificationEvent_catch ->
  exists lines,
    step e (Settle n outcome) s =
      Some (mkState (isInitialized s) (deviceToken s) (location_href s)
              (next_node s) (document_head s) (document_body s) (timers s)
              (listeners s) (remove_nth n (pending s))
              ((trace s ++ [settled (awaited_call p) outcome]) ++ lines)) /\
    length lines <= 1 /\
    Forall is_console lines.
Proof.
  intros Hp Hk. rewrite (step_settle e n outcome s p Hp).
  destruct Hk as [-> | ->]; cbn [resume].
  - destruct (sendTokenToServer_resume_logs outcome e (settling n p outcome s))
      as (l & args & ->).
    exists [console l args]. repeat split; [cbn; lia|].
    constructor; [now exists l, args | constructor].
  - destruct outcome as [v|x].
    + exists []. cbn. rewrite app_nil_r. repeat split; [lia | constructor].
    + eexists [_]. repeat split; [cbn; lia|].
      constructor; [now eexists; eexists | constructor].
Qed.

Definition response_503 : value :=
  VObject [("ok", VBool false); ("status", VNum (mkNumber true "503"))].

Lemma fetch_outcome_only_logs_witness :
  exists lines,
    step (android_host None) (Settle 0 (Resolved response_503)) token_page =
      Some (mkState (isInitialized token_page) (deviceToken token_page)
              (location_href token_page) (next_node token_page)
              (document_head token_page) (document_body token_page)
              (timers token_page) (listeners token_page)
              (remove_nth 0 (pending token_page))
              ((trace token_page ++
                [settled
                   (fetch (token_request (VString "T1") VNull
                             "2024-05-01T08:00:00.000Z"))
                   (Resolved response_503)]) ++ lines)) /\
    length lines <= 1 /\
    Forall is_console lines.
Proof.
  apply (fetch_outcome_only_logs (android_host None) 0 (Resolved response_503)
           token_page
           (mkSuspended
              (fetch (token_request (VString "T1") VNull
                        "2024-05-01T08:00:00.000Z"))
              sendTokenToServer_after_fetch)).
  - reflexivity.
  - left. reflexivity.
Defined.

(** ** Routing a tap *)

(** Once a property of [o] has been read, every read of [o] succeeds. *)
Lemma get_defined (o v : value) (k k' : string) :
  get o k = Ok v -> exists v', get o k' = Ok v'.
Proof.
  destruct o; unfold get; intros H; try discriminate;
    try (eexists; reflexivity).
  destruct (lookup k' fields); eexists; reflexivity.
Qed.

Definition opened (req : request) : Prop :=
  url req = "https://leqoehunt.my/api/notification-analytics" /\
  method req = "POST" /\
  json_member "action" (body req) = Some (VString "opened").

Lemma tapped_routes
    (e : env) (s : state) (n inner data idv : value) (text : string) :
  get n "notification" = Ok inner ->
  get inner "data" = Ok data ->
  ToString idv = Ok text ->
  (get data "type" = Ok (VString "kedai_verification") ->
   get data "kedai_id" = Ok idv ->
   exists req,
     handleNotificationTapped n e s =
       (Ok tt, tracking req
                 (set_location_href ("https://leqoehunt.my/kedai/" ++ text) s)) /\
     opened req) /\
  (get data "type" = Ok (VString "photohunt_challenge") ->
   get data "challenge_id" = Ok idv ->
   exists req,
     handleNotificationTapped n e s =
       (Ok tt, tracking req
                 (set_location_href ("https://leqoehunt.my/photohunt/" ++ text) s)) /\
     opened req) /\
  (get data "type" = Ok (VString "business_update") ->
   exists req,
     handleNotificationTapped n e s =
       (Ok tt, tracking req
                 (set_location_href "https://leqoehunt.my/dashboard" s)) /\
     opened req) /\
  (get data "type" = Ok (VString "promotional") ->
   get data "promo_id" = Ok idv ->
   exists req,
     handleNotificationTapped n e s =
       (Ok tt, tracking req
                 (set_location_href ("https://leqoehunt.my/promo/" ++ text) s)) /\
     opened req).
Proof.
  intros Hinner Hdata Htext.
  assert (Htrack : forall s0, exists req,
             trackNotificationEvent (VString "opened") inner e s0 =
               (Ok tt, tracking req s0) /\ opened req).
  { intros s0.
    destruct (trackNotificationEvent_fires (VString "opened") inner data e s0
                Hdata) as (nid & ty & _ & _ & H).
    eexists. split; [exact H | repeat split]. }
  repeat split; intros Hty; try intros Hid;
    match goal with
    | |- exists req, _ = (Ok tt, tracking req ?s1) /\ _ =>
        destruct (Htrack s1) as (req & Hreq & Hopened); exists req;
        split; [|exact Hopened]
    end;
    unfold handleNotificationTapped, bind, lift; reads; cbn;
    unfold navigateToKedai, navigateToPhotoHunt, navigateToBusinessDashboard,
      navigateToPromotion, navigate, bind, lift, modify; reads; cbn;
    rewrite ?Htext; reads; exact Hreq.
Qed.

(** X9.  The three routes besides the kedai one of C5, and the kedai route
    for any id: a [photohunt_challenge] tap goes to the photo-hunt page of
    its [challenge_id], a [business_update] tap to the dashboard, a
    [promotional] tap to the promotion page of its [promo_id], a
    [kedai_verification] tap to the kedai page of its [kedai_id]; the id is
    put into the URL as the template literal renders it, unescaped, and each
    tap issues exactly one analytics POST with action [opened]. *)
Theorem handleNotificationTapped_routes
    (e : env) (s : state) (n inner data idv : value) (text : string) :
  get n "notification" = Ok inner ->
  get inner "data" = Ok data ->
  ToString idv = Ok text ->
  (get data "type" = Ok (VString "kedai_verification") ->
   get data "kedai_id" = Ok idv ->
   exists req,
     handleNotificationTapped n e s =
       (Ok tt, tracking req
                 (set_location_href ("https://leqoehunt.my/kedai/" ++ text) s)) /\
     location_href (snd (handleNotificationTapped n e s)) =
       ("https://leqoehunt.my/kedai/" ++ text)%string /\
     opened req) /\
  (get data "type" = Ok (VString "photohunt_challenge") ->
   get data "challenge_id" = Ok idv ->
   exists req,
     handleNotificationTapped n e s =
       (Ok tt, tracking req
                 (set_location_href ("https://leqoehunt.my/photohunt/" ++ text) s)) /\
     location_href (snd (handleNotificationTapped n e s)) =
       ("https://leqoehunt.my/photohunt/" ++ text)%string /\
     opened req) /\
  (get data "type" = Ok (VString "business_update") ->
   exists req,
     handleNotificationTapped n e s =
       (Ok tt, tracking req
                 (set_location_href "https://leqoehunt.my/dashboard" s)) /\
     location_href (snd (handleNotificationTapped n e s)) =
       "https://leqoehunt.my/dashboard" /\
     opened req) /\
  (get data "type" = Ok (VString "promotional") ->
   get data "promo_id" = Ok idv ->
   exists req,
     handleNotificationTapped n e s =
       (Ok tt, tracking req
                 (set_location_href ("https://leqoehunt.my/promo/" ++ text) s)) /\
     location_href (snd (handleNotificationTapped n e s)) =
       ("https://leqoehunt.my/promo/" ++ text)%string /\
     opened req).
Proof.
  intros Hinner Hdata Htext.
  destruct (tapped_routes e s n inner data idv text Hinner Hdata Htext)
    as (Hk & Hp & Hb & Hm).
  repeat split; intros Hty; try intros Hid.
  - destruct (Hk Hty Hid) as (req & Hrun & Ho). exists req.
    rewrite Hrun. split; [reflexivity | split; [reflexivity | exact Ho]].
  - destruct (Hp Hty Hid) as (req & Hrun & Ho). exists req.
    rewrite Hrun. split; [reflexivity | split; [reflexivity | exact Ho]].
  - destruct (Hb Hty) as (req & Hrun & Ho). exists req.
    rewrite Hrun. split; [reflexivity | split; [reflexivity | exact Ho]].
  - destruct (Hm Hty Hid) as (req & Hrun & Ho). exists req.
    rewrite Hrun. split; [reflexivity | split; [reflexivity | exact Ho]].
Qed.

Definition photohunt_data : value :=
  VObject [("type", VString "photohunt_challenge");
           ("challenge_id", VNum (mkNumber true "17"))].

Definition tap_photohunt_17 : value :=
  VObject [("notification", VObject [("data", photohunt_data)])].

Lemma handleNotificationTapped_routes_witness :
  exists req,
    handleNotificationTapped tap_photohunt_17 (android_host None) ready_page =
      (Ok tt, tracking req
                (set_location_href "https://leqoehunt.my/photohunt/17" ready_page)) /\
    location_href
      (snd (handleNotificationTapped tap_photohunt_17 (android_host None)
              ready_page)) = "https://leqoehunt.my/photohunt/17" /\
    opened req.
Proof.
  apply (handleNotificationTapped_routes (android_host None) ready_page
           tap_photohunt_17 (VObject [("data", photohunt_data)]) photohunt_data
           (VNum (mkNumber true "17")) "17" eq_refl eq_refl eq_refl);
    reflexivity.
Defined.

(** X10.  A typed tap whose id is missing does not fall back to the home
    page: the absent member reads as [undefined] and the location becomes
    the kedai, photo-hunt or promotion URL ending in the text undefined. *)
Theorem handleNotificationTapped_missing_id
    (e : env) (s : state) (n inner data : value) :
  get n "notification" = Ok inner ->
  get inner "data" = Ok data ->
  (get data "type" = Ok (VString "kedai_verification") ->
   get data "kedai_id" = Ok VUndefined ->
   location_href (snd (handleNotificationTapped n e s)) =
     "https://leqoehunt.my/kedai/undefined") /\
  (get data "type" = Ok (VString "photohunt_challenge") ->
   get data "challenge_id" = Ok VUndefined ->
   location_href (snd (handleNotificationTapped n e s)) =
     "https://leqoehunt.my/photohunt/undefined") /\
  (get data "type" = Ok (VString "promotional") ->
   get data "promo_id" = Ok VUndefined ->
   location_href (snd (handleNotificationTapped n e s)) =
     "https://leqoehunt.my/promo/undefined").
Proof.
  intros Hinner Hdata.
  destruct (tapped_routes e s n inner data VUndefined "undefined"
              Hinner Hdata eq_refl) as (Hk & Hp & _ & Hm).
  repeat split; intros Hty Hid.
  - destruct (Hk Hty Hid) as (req & -> & _). reflexivity.
  - destruct (Hp Hty Hid) as (req & -> & _). reflexivity.
  - destruct (Hm Hty Hid) as (req & -> & _). reflexivity.
Qed.

Definition tap_kedai_without_id : value :=
  VObject [("notification",
            VObject [("data", VObject [("type", VString "kedai_verification")])])].

Lemma handleNotificationTapped_missing_id_witness :
  location_href
    (snd (handleNotificationTapped tap_kedai_without_id (android_host None)
            ready_page)) =
    "https://leqoehunt.my/kedai/undefined".
Proof.
  apply (handleNotificationTapped_missing_id (android_host None) ready_page
           tap_kedai_without_id
           (VObject [("data", VObject [("type", VString "kedai_verification")])])
           (VObject [("type", VString "kedai_verification")])
           eq_refl eq_refl); reflexivity.
Defined.

Lemma bind_lift {A B} (r : result A) (k : A -> M B) (e : env) (s : state) :
  bind (lift r) k e s =
    match r with
    | Ok a => k a e s
    | Throw x => (Throw x, s)
    end.
Proof. reflexivity. Qed.

Lemma bind_run {A B} (m : M A) (k : A -> M B) (e : env) (s s1 : state)
    (r : result A) :
  m e s = (r, s1) ->
  bind m k e s =
    match r with
    | Ok a => k a e s1
    | Throw x => (Throw x, s1)
    end.
Proof. intros H. unfold bind. now rewrite H. Qed.






(** ** The banner *)

Definition styles_selector : string := "#leqoehunt-notification-styles".

(** [showInAppNotification] for any title and body that can be rendered. *)
Lemma showInAppNotification_renders
    (e : env) (s : state) (n tv bv : value) (t b : string) :
  get n "title" = Ok tv ->
  get n "body" = Ok bv ->
  ToString tv = Ok t ->
  ToString bv = Ok b ->
  showInAppNotification n e s =
    (Ok tt, shown (querySelector e styles_selector) t b s).
Proof.
  intros Ht Hb Htv Hbv.
  unfold showInAppNotification, shown, bind, lift, asks, createElement, gets,
    modify, ret, styles_selector. reads. cbn. rewrite Htv. cbn. rewrite Hbv. cbn.
  destruct (querySelector e "#leqoehunt-notification-styles"); reflexivity.
Qed.

(** It returns with the banner shown, or throws having only drawn the next
    element identity. *)
Lemma showInAppNotification_cases (e : env) (s : state) (n : value) :
  (exists t b,
      showInAppNotification n e s =
        (Ok tt, shown (querySelector e styles_selector) t b s)) \/
  (exists x,
      showInAppNotification n e s =
        (Throw x, set_next_node (S (next_node s)) s)).
Proof.
  destruct (get n "title") as [tv|x] eqn:Ht.
  - destruct (ToString tv) as [t|x] eqn:Htv.
    + destruct (get n "body") as [bv|x] eqn:Hb.
      * destruct (ToString bv) as [b|x] eqn:Hbv.
        -- left. exists t, b.
           exact (showInAppNotification_renders e s n tv bv t b Ht Hb Htv Hbv).
        -- right. exists x.
           unfold showInAppNotification, bind, lift, createElement, gets,
             modify, ret. reads. cbn. rewrite Htv. cbn. now rewrite Hbv.
      * right. exists x.
        unfold showInAppNotification, bind, lift, createElement, gets,
          modify, ret. reads. cbn. rewrite Htv. reflexivity.
    + right. exists x.
      unfold showInAppNotification, bind, lift, createElement, gets,
        modify, ret. reads. cbn. now rewrite Htv.
  - right. exists x.
    unfold showInAppNotification, bind, lift, createElement, gets,
      modify, ret. now reads.
Qed.

Lemma handleNotificationReceived_renders
    (e : env) (s : state) (n tv bv : value) (t b : string) :
  get n "title" = Ok tv ->
  get n "body" = Ok bv ->
  ToString tv = Ok t ->
  ToString bv = Ok b ->
  exists req,
    handleNotificationReceived n e s =
      (Ok tt, tracking req (shown (querySelector e styles_selector) t b s)) /\
    url req = "https://leqoehunt.my/api/notification-analytics" /\
    json_member "action" (body req) = Some (VString "received").
Proof.
  intros Ht Hb Htv Hbv.
  destruct (get_defined n tv "title" "data" Ht) as [data Hd].
  destruct (trackNotificationEvent_fires (VString "received") n data e
              (shown (querySelector e styles_selector) t b s) Hd)
    as (nid & ty & _ & _ & Htrack).
  eexists. split.
  - unfold handleNotificationReceived.
    rewrite bind_lift, Ht, bind_lift, Hb, bind_lift, Hd.
    rewrite (bind_run _ _ e s _ _
               (showInAppNotification_renders e s
                  (VObject [("title", tv); ("body", bv); ("data", data)])
                  tv bv t b eq_refl eq_refl Htv Hbv)).
    exact Htrack.
  - split; reflexivity.
Qed.

(** X12.  The style sheet is appended to the head only when the query for
    its id finds nothing: then exactly one [style] element with the id
    [leqoehunt-notification-styles] and the rules of lines 196-228 is added;
    when the query finds it, the head is left as it is. *)
Theorem handleNotificationReceived_styles_once
    (e : env) (s : state) (n tv bv : value) (t b : string) :
  get n "title" = Ok tv ->
  get n "body" = Ok bv ->
  ToString tv = Ok t ->
  ToString bv = Ok b ->
  document_head (snd (handleNotificationReceived n e s)) =
    if querySelector e "#leqoehunt-notification-styles" then document_head s
    else document_head s ++
           [mkElement (S (next_node s)) "style" "leqoehunt-notification-styles"
              "" "" "" styles_textContent].
Proof.
  intros Ht Hb Htv Hbv.
  destruct (handleNotificationReceived_renders e s n tv bv t b Ht Hb Htv Hbv)
    as (req & -> & _).
  unfold styles_selector.
  destruct (querySelector e "#leqoehunt-notification-styles"); reflexivity.
Qed.

Definition styled_host : env :=
  mkEnv true (fun _ => Ok None) (fun _ => Ok None) JSON_parse_examples
    "2024-05-01T08:00:00.000Z"
    (fun selector => String.eqb selector "#leqoehunt-notification-styles").

Lemma handleNotificationReceived_styles_once_witness :
  document_head
    (snd (handleNotificationReceived hi_there (android_host None) ready_page)) =
    [mkElement 1 "style" "leqoehunt-notification-styles" "" "" ""
       styles_textContent] /\
  document_head
    (snd (handleNotificationReceived hi_there styled_host ready_page)) = [].
Proof.
  split.
  - apply (handleNotificationReceived_styles_once (android_host None)
             ready_page hi_there (VString "Hi") (VString "There") "Hi" "There");
      reflexivity.
  - apply (handleNotificationReceived_styles_once styled_host
             ready_page hi_there (VString "Hi") (VString "There") "Hi" "There");
      reflexivity.
Defined.

(** X13.  Title and body go into the markup as the template literal
    renders them, whatever values they are and unescaped; a payload without
    a title and a body gets a banner that reads undefined in their place. *)
Theorem handleNotificationReceived_renders_any_value
    (e : env) (s : state) (n : value) :
  (forall tv bv t b,
      get n "title" = Ok tv ->
      get n "body" = Ok bv ->
      ToString tv = Ok t ->
      ToString bv = Ok b ->
      map innerHTML (document_body (snd (handleNotificationReceived n e s))) =
        map innerHTML (document_body s) ++ [banner_html t b]) /\
  (get n "title" = Ok VUndefined ->
   get n "body" = Ok VUndefined ->
   map innerHTML (document_body (snd (handleNotificationReceived n e s))) =
     map innerHTML (document_body s) ++ [banner_html "undefined" "undefined"]).
Proof.
  assert (H : forall tv bv t b,
             get n "title" = Ok tv -> get n "body" = Ok bv ->
             ToString tv = Ok t -> ToString bv = Ok b ->
             map innerHTML
               (document_body (snd (handleNotificationReceived n e s))) =
               map innerHTML (document_body s) ++ [banner_html t b]).
  { intros tv bv t b Ht Hb Htv Hbv.
    destruct (handleNotificationReceived_renders e s n tv bv t b Ht Hb Htv Hbv)
      as (req & -> & _).
    unfold shown. destruct (querySelector e styles_selector); cbn;
      now rewrite map_app. }
  split; [exact H|].
  intros Ht Hb. exact (H VUndefined VUndefined _ _ Ht Hb eq_refl eq_refl).
Qed.

Definition data_only : value :=
  VObject [("data", VObject [("type", VString "promotional")])].

Definition number_7 : value := VNum (mkNumber true "7").

Definition numeric_title : value :=
  VObject [("title", number_7); ("body", VArray [VString "a"; VString "b"])].

Lemma handleNotificationReceived_renders_any_value_witness :
  map innerHTML
    (document_body
       (snd (handleNotificationReceived numeric_title (android_host None)
               ready_page))) =
    map innerHTML (document_body ready_page) ++ [banner_html "7" "a,b"] /\
  map innerHTML
    (document_body
       (snd (handleNotificationReceived data_only (android_host None)
               ready_page))) =
    map innerHTML (document_body ready_page) ++
      [banner_html "undefined" "undefined"].
Proof.
  split.
  - apply (proj1 (handleNotificationReceived_renders_any_value
                    (android_host None) ready_page numeric_title)
             number_7 (VArray [VString "a"; VString "b"]) "7" "a,b");
      reflexivity.
  - apply (proj2 (handleNotificationReceived_renders_any_value
                    (android_host None) ready_page data_only));
      reflexivity.
Defined.

Lemma received_cases (e : env) (s : state) (n : value) :
  (exists t b req,
      handleNotificationReceived n e s =
        (Ok tt, tracking req (shown (querySelector e styles_selector) t b s)) /\
      json_member "action" (body req) = Some (VString "received")) \/
  (exists x s',
      handleNotificationReceived n e s = (Throw x, s') /\
      document_head s' = document_head s /\
      document_body s' = document_body s /\
      timers s' = timers s /\
      pending s' = pending s /\
      trace s' = trace s /\
      next_node s <= next_node s').
Proof.
  unfold handleNotificationReceived. rewrite bind_lift.
  destruct (get n "title") as [tv|x] eqn:Ht;
    [|right; exists x, s; repeat split; lia].
  rewrite bind_lift.
  destruct (get_defined n tv "title" "body" Ht) as [bv Hb]. rewrite Hb.
  rewrite bind_lift.
  destruct (get_defined n tv "title" "data" Ht) as [data Hd]. rewrite Hd.
  destruct (showInAppNotification_cases e s
              (VObject [("title", tv); ("body", bv); ("data", data)]))
    as [(t & b & Hshow)|(x & Hshow)];
    rewrite (bind_run _ _ e s _ _ Hshow).
  - left.
    destruct (trackNotificationEvent_fires (VString "received") n data e
                (shown (querySelector e styles_selector) t b s) Hd)
      as (nid & ty & _ & _ & Htrack).
    exists t, b. eexists. split; [exact Htrack | reflexivity].
  - right. exists x. eexists. repeat split. cbn. lia.
Qed.

(** X14.  Receiving is all or nothing as well.  When the handler returns,
    the banner is in the body, its timer is scheduled and one analytics POST
    with action [received] has gone out; when it throws (no payload, a title
    or body that cannot be rendered), no element has been added anywhere, no
    timer scheduled and no request sent. *)
Theorem handleNotificationReceived_all_or_nothing
    (e : env) (s : state) (n : value) :
  (exists t b req,
      handleNotificationReceived n e s =
        (Ok tt, tracking req (shown (querySelector e styles_selector) t b s)) /\
      json_member "action" (body req) = Some (VString "received")) \/
  (exists x s',
      handleNotificationReceived n e s = (Throw x, s') /\
      document_head s' = document_head s /\
      document_body s' = document_body s /\
      timers s' = timers s /\
      pending s' = pending s /\
      trace s' = trace s).
Proof.
  destruct (received_cases e s n)
    as [H|(x & s' & H & Hh & Hb & Ht & Hp & Htr & _)]; [now left|].
  right. now exists x, s'.
Qed.

(** ** Removing a banner *)

(** X15.  The timer callback does nothing to a banner that is no longer in
    the body: when the timer of a detached banner expires, the test of line
    237 fails and the page stays as it is; only the timer is used up. *)
Theorem timer_on_detached_banner
    (e : env) (n k d : nat) (s : state) :
  attached n s = false ->
  nth_error (timers s) k = Some (mkTimer (remove_if_attached n) d) ->
  step e (Fire k) s = Some (set_timers (remove_nth k (timers s)) s).
Proof.
  intros Hdetached Htimer. unfold step. rewrite Htimer. cbn [callback].
  unfold run_timer, bind, gets.
  change (attached n (set_timers (remove_nth k (timers s)) s))
    with (attached n s).
  now rewrite Hdetached.
Qed.

Lemma timer_on_detached_banner_witness :
  step (android_host None) (Dismiss 0) banner_page =
    Some (remove_node 0 banner_page) /\
  step (android_host None) (Fire 0) (remove_node 0 banner_page) =
    Some (set_timers (remove_nth 0 (timers (remove_node 0 banner_page)))
            (remove_node 0 banner_page)).
Proof.
  split; [vm_compute; reflexivity|].
  apply (timer_on_detached_banner (android_host None) 0 0 5000
           (remove_node 0 banner_page)); reflexivity.
Defined.

(** Element identities in the body are distinct and below the counter. *)
Definition fresh (s : state) : Prop :=
  Forall (fun el => node el < next_node s) (document_body s) /\
  NoDup (map node (document_body s)).

Lemma fresh_bump (s s' : state) :
  fresh s ->
  document_body s' = document_body s ->
  next_node s <= next_node s' ->
  fresh s'.
Proof.
  intros [Hlt Hnd] Hb Hn. unfold fresh. rewrite Hb. split; [|exact Hnd].
  eapply Forall_impl; [|exact Hlt]. cbn. intros el H. lia.
Qed.

Lemma fresh_document (s s' : state) :
  fresh s -> document s' = document s -> fresh s'.
Proof.
  intros Hf H. unfold document in H. injection H as _ Hb _ Hn.
  apply (fresh_bump s s' Hf Hb). lia.
Qed.

Lemma fresh_shown (found : bool) (t b : string) (s : state) :
  fresh s -> fresh (shown found t b s).
Proof.
  intros [Hlt Hnd].
  assert (Hbody : document_body (shown found t b s) =
                  document_body s ++ [banner_element (next_node s) t b])
    by (unfold shown; destruct found; reflexivity).
  assert (Hnext : next_node s < next_node (shown found t b s))
    by (unfold shown; destruct found; cbn; lia).
  unfold fresh. rewrite Hbody. split.
  - apply Forall_app. split.
    + eapply Forall_impl; [|exact Hlt]. cbv beta. intros el H. lia.
    + constructor; [exact Hnext | constructor].
  - rewrite map_app. cbn.
    apply NoDup_app; [exact Hnd | constructor; [intros [] | constructor] |].
    intros n Hin [<-|[]]. rewrite Forall_forall in Hlt.
    apply in_map_iff in Hin. destruct Hin as (el & Hel & Hin).
    specialize (Hlt el Hin). cbn in Hlt. lia.
Qed.

Lemma fresh_remove_node (n : nat) (s : state) :
  fresh s -> fresh (remove_node n s).
Proof.
  intros [Hlt Hnd]. unfold fresh, remove_node. cbn. split.
  - rewrite Forall_forall in *. intros el Hin.
    apply filter_In in Hin. now apply Hlt.
  - induction (document_body s) as [|el rest IH]; cbn; [constructor|].
    inversion Hnd as [|? ? Hnotin Hrest]; subst.
    inversion Hlt as [|? ? Hel Hrestlt]; subst.
    destruct (Nat.eqb (node el) n); cbn; [now apply IH|].
    constructor; [|now apply IH].
    intros Hin. apply Hnotin. apply in_map_iff in Hin.
    destruct Hin as (x & Hx & Hin). apply filter_In in Hin.
    apply in_map_iff. exists x. tauto.
Qed.

Lemma fresh_finish (r : result unit * state) : fresh (snd r) -> fresh (finish r).
Proof. destruct r as [[u|x] s1]; trivial. Qed.

Lemma fresh_received (e : env) (s : state) (n : value) :
  fresh s -> fresh (snd (handleNotificationReceived n e s)).
Proof.
  intros Hf.
  destruct (received_cases e s n)
    as [(t & b & req & -> & _)|(x & s' & -> & _ & Hb & _ & _ & _ & Hn)].
  - apply (fresh_document (shown (querySelector e styles_selector) t b s));
      [now apply fresh_shown | reflexivity].
  - exact (fresh_bump s s' Hf Hb Hn).
Qed.

Lemma fresh_step (e : env) (l : label) (s s' : state) :
  fresh s -> step e l s = Some s' -> fresh s'.
Proof.
  intros Hf Hstep. destruct (draws l) eqn:Hl.
  - destruct l as [n outcome|ev payload|n|n|c]; try discriminate Hl;
      unfold step in Hstep.
    + destruct ev; try discriminate Hl.
      destruct (listening pushNotificationReceived s); [|discriminate].
      injection Hstep as <-.
      apply (dispatch_related (fun a b => fresh a -> fresh b)
               (fun a H => H) (fun a b c Hab Hbc H => Hbc (Hab H))
               (listener pushNotificationReceived payload) e);
        [|exact Hf].
      intros s0 H0. apply fresh_finish.
      change (fresh (snd (handleNotificationReceived payload e
                (emitting [console log [str "Push notification received: ";
                                        AV payload]] s0)))).
      apply fresh_received. apply (fresh_document s0 _ H0). reflexivity.
    + destruct (nth_error (timers s) n) as [t|]; [|discriminate].
      injection Hstep as <-. apply fresh_finish.
      destruct (callback t) as [m]. unfold run_timer, bind, gets, modify, ret.
      destruct (attached m (set_timers (remove_nth n (timers s)) s)); cbn [snd].
      * apply fresh_remove_node.
        apply (fresh_bump s _ Hf); [reflexivity | cbn; lia].
      * apply (fresh_bump s _ Hf); [reflexivity | cbn; lia].
    + destruct (dismissible n s); [|discriminate]. injection Hstep as <-.
      now apply fresh_remove_node.
    + injection Hstep as <-. apply fresh_finish.
      destruct c; try discriminate Hl; cbn [invoke].
      * now apply fresh_received.
      * destruct (showInAppNotification_cases e s notification)
          as [(t & b & ->)|(x & ->)].
        -- now apply fresh_shown.
        -- apply (fresh_bump s _ Hf); [reflexivity | cbn; lia].
  - apply (fresh_document s s' Hf). exact (step_keeps_document e l s s' Hl Hstep).
Qed.

Lemma fresh_run (steps : list (env * label)) (s s' : state) :
  fresh s -> run steps s = Some s' -> fresh s'.
Proof.
  revert s. induction steps as [|[e l] rest IH]; intros s Hf Hrun; cbn in Hrun.
  - now injection Hrun as <-.
  - destruct (step e l s) as [s1|] eqn:Hstep; [|discriminate].
    apply (IH s1); [|exact Hrun]. exact (fresh_step e l s s1 Hf Hstep).
Qed.

Lemma fresh_loaded (e : env) (href : string) : fresh (loaded e href).
Proof.
  destruct (isNativePlatform e) eqn:Hnative.
  - rewrite (loaded_native e href Hnative). split; constructor.
  - rewrite (loaded_web e href Hnative). split; constructor.
Qed.

Lemma filter_other_nodes (n : nat) (l : list element) :
  ~ In n (map node l) ->
  filter (fun el => negb (Nat.eqb (node el) n)) l = l.
Proof.
  induction l as [|el rest IH]; cbn; [reflexivity|]. intros Hnotin.
  destruct (Nat.eqb_spec (node el) n) as [Heq|Hne]; cbn.
  - elim Hnotin. now left.
  - rewrite IH; [reflexivity|]. intros Hin. apply Hnotin. now right.
Qed.

Lemma remove_the_node (l1 l2 : list element) (el : element) :
  NoDup (map node (l1 ++ el :: l2)) ->
  filter (fun x => negb (Nat.eqb (node x) (node el))) (l1 ++ el :: l2) = l1 ++ l2.
Proof.
  intros Hnd. rewrite map_app in Hnd. cbn in Hnd.
  pose proof (NoDup_remove_2 _ _ _ Hnd) as Hnotin.
  rewrite filter_app. cbn. rewrite Nat.eqb_refl. cbn.
  rewrite !filter_other_nodes; [reflexivity| |];
    intros Hin; apply Hnotin; apply in_or_app; tauto.
Qed.

(** X16.  However many banners are on the page, the timer of a banner
    removes that banner and no other: element identities never repeat in any
    run from the loaded module, so when the timer expires the rest of the
    body stays in place and in order. *)
Theorem banner_removed_alone
    (e0 e : env) (href : string) (steps : list (env * label)) (s : state)
    (l1 l2 : list element) (el : element) (k d : nat) :
  run steps (loaded e0 href) = Some s ->
  document_body s = l1 ++ el :: l2 ->
  nth_error (timers s) k = Some (mkTimer (remove_if_attached (node el)) d) ->
  exists s', step e (Fire k) s = Some s' /\ document_body s' = l1 ++ l2.
Proof.
  intros Hrun Hbody Htimer.
  destruct (fresh_run steps _ s (fresh_loaded e0 href) Hrun) as [_ Hnd].
  rewrite Hbody in Hnd.
  assert (Hattached : attached (node el)
                        (set_timers (remove_nth k (timers s)) s) = true).
  { unfold attached. cbn. rewrite Hbody, existsb_app. cbn.
    rewrite Nat.eqb_refl. now rewrite orb_true_r. }
  unfold step. rewrite Htimer. cbn [callback].
  unfold run_timer, bind, gets, modify. rewrite Hattached.
  eexists. split; [reflexivity|]. cbn [finish].
  unfold remove_node. cbn. rewrite Hbody. now apply remove_the_node.
Qed.

(** Two notifications, the second on a page that has the style sheet from
    the first. *)
Definition two_banner_run : list (env * label) :=
  granted_run ++
  [(android_host None, Deliver pushNotificationReceived hi_there);
   (styled_host, Deliver pushNotificationReceived data_only)].

Definition two_banners : state :=
  Eval vm_compute in
    match run two_banner_run (loaded (android_host None) app_href) with
    | Some s => s
    | None => ready_page
    end.

Definition first_banner : element := banner_element 0 "Hi" "There".
Definition second_banner : element := banner_element 2 "undefined" "undefined".

Lemma banner_removed_alone_witness :
  run two_banner_run (loaded (android_host None) app_href) = Some two_banners /\
  length (document_head two_banners) = 1 /\
  (exists s', step (android_host None) (Fire 0) two_banners = Some s' /\
              document_body s' = [second_banner]).
Proof.
  assert (Hrun : run two_banner_run (loaded (android_host None) app_href) =
                 Some two_banners) by (vm_compute; reflexivity).
  assert (Hbody : document_body two_banners = [] ++ first_banner :: [second_banner])
    by (vm_compute; reflexivity).
  split; [exact Hrun|]. split; [reflexivity|].
  apply (banner_removed_alone (android_host None) (android_host None)
           app_href two_banner_run two_banners [] [second_banner]
           first_banner 0 5000 Hrun Hbody).
  vm_compute. reflexivity.
Defined.

(** ** Calling initialize again *)

Lemma remove_nth_last {A} (l : list A) (x : A) :
  remove_nth (length l) (l ++ [x]) = l.
Proof. induction l as [|y l IH]; cbn; [reflexivity | now rewrite IH]. Qed.

(** Settling the promise parked last. *)
Lemma step_settle_last
    (e : env) (outcome : settle) (s : state) (a : awaitable) (k : continuation)
    (rest : list suspended) :
  pending s = rest ++ [mkSuspended a k] ->
  step e (Settle (length rest) outcome) s =
    Some (finish (resume k outcome e
                    (emitting [settled a outcome] (set_pending rest s)))).
Proof.
  intros Hp.
  rewrite (step_settle e (length rest) outcome s (mkSuspended a k)).
  - unfold settling. now rewrite Hp, remove_nth_last.
  - rewrite Hp. apply nth_error_last.
Qed.

(** X17.  [initialize] has no guard against a second run: called again on
    any state of a native host, with permission granted and every call
    resolving, it hands the plugin each of the four callbacks once more, so
    that a ready object ends up with every listener attached twice. *)
Theorem initialize_again_attaches_again
    (e0 e1 e2 e3 e4 e5 e6 : env) (s : state) (p v0 v1 v2 v3 v4 : value) :
  isNativePlatform e0 = true ->
  get p "receive" = Ok (VString "granted") ->
  exists s',
    run [(e0, Invoke call_initialize);
         (e1, Settle (length (pending s)) (Resolved p));
         (e2, Settle (length (pending s)) (Resolved v0));
         (e3, Settle (length (pending s)) (Resolved v1));
         (e4, Settle (length (pending s)) (Resolved v2));
         (e5, Settle (length (pending s)) (Resolved v3));
         (e6, Settle (length (pending s)) (Resolved v4))] s = Some s' /\
    listeners s' = listeners s ++ four_listeners /\
    pending s' = pending s /\
    isInitialized s' = true.
Proof.
  intros Hnative Hp. eexists. split.
  - cbn [run]. unfold step at 1. cbn [invoke].
    rewrite (initialize_native e0 s Hnative). cbn [finish].
    erewrite step_settle_last; [|reflexivity]. cbn [resume].
    rewrite (initialize_checked_granted p _ _ Hp). cbn [finish].
    erewrite step_settle_last; [|reflexivity]. cbn [resume].
    rewrite initialize_registered. cbn [finish].
    do 4 (erewrite step_settle_last; [|reflexivity]; cbn [resume];
          rewrite initialize_listener_added; cbn [finish next_listener]).
    reflexivity.
  - cbn. rewrite <- !app_assoc. repeat split.
Qed.

Lemma initialize_again_attaches_again_witness :
  exists s',
    run [(android_host None, Invoke call_initialize);
         (android_host None, Settle 0 (Resolved (permission "granted")));
         (android_host None, Settle 0 (Resolved VUndefined));
         (android_host None, Settle 0 (Resolved handle));
         (android_host None, Settle 0 (Resolved handle));
         (android_host None, Settle 0 (Resolved handle));
         (android_host None, Settle 0 (Resolved handle))] ready_page = Some s' /\
    listeners s' = four_listeners ++ four_listeners /\
    pending s' = [] /\
    isInitialized s' = true.
Proof.
  apply (initialize_again_attaches_again (android_host None) (android_host None)
           (android_host None) (android_host None) (android_host None)
           (android_host None) (android_host None) ready_page
           (permission "granted") VUndefined handle handle handle handle);
    reflexivity.
Defined.

(** ** The stored user record *)

(** X18.  [getUserInfo] reads the local store first and the session store
    only when the local item is missing or empty: a non-empty local item
    decides the result whatever the session store holds or throws, and with
    no usable local item the session item is parsed instead.  A text that
    does not parse yields the default record and one warning. *)
Theorem getUserInfo_storage_precedence (e : env) (s : state) (text : string) :
  text <> "" ->
  (localStorage_getItem e "leqoehunt_user" = Ok (Some text) ->
   getUserInfo e s =
     match JSON_parse e text with
     | Ok parsed => (Ok parsed, s)
     | Throw x => (Ok (VObject [("userId", VNull)]),
                   emitting [parse_notice x] s)
     end) /\
  (localStorage_getItem e "leqoehunt_user" = Ok None \/
   localStorage_getItem e "leqoehunt_user" = Ok (Some "") ->
   sessionStorage_getItem e "leqoehunt_user" = Ok (Some text) ->
   getUserInfo e s =
     match JSON_parse e text with
     | Ok parsed => (Ok parsed, s)
     | Throw x => (Ok (VObject [("userId", VNull)]),
                   emitting [parse_notice x] s)
     end).
Proof.
  intros Htext. split.
  - intros Hlocal. apply (getUserInfo_parsed e s text _); [|exact Htext|reflexivity].
    unfold stored_item. rewrite Hlocal.
    destruct (item_truthy (Some text)) eqn:Ht; [reflexivity|].
    cbn in Ht. apply negb_false_iff, String.eqb_eq in Ht. contradiction.
  - intros Hlocal Hsession.
    apply (getUserInfo_parsed e s text _); [|exact Htext|reflexivity].
    unfold stored_item. destruct Hlocal as [-> | ->]; exact Hsession.
Qed.

Definition session_host : env :=
  mkEnv true (fun _ => Ok (Some "")) (fun _ => Ok (Some user_u7_text))
    JSON_parse_examples "2024-05-01T08:00:00.000Z" (fun _ => false).

Definition guarded_session_host : env :=
  mkEnv true (fun _ => Ok (Some "{oops")) (fun _ => Throw (NativeError "SecurityError"))
    JSON_parse_examples "2024-05-01T08:00:00.000Z" (fun _ => false).

Lemma getUserInfo_storage_precedence_witness :
  getUserInfo guarded_session_host ready_page =
    (Ok (VObject [("userId", VNull)]),
     emitting [parse_notice SyntaxError] ready_page) /\
  getUserInfo session_host ready_page =
    (Ok (VObject [("userId", VString "u7")]), ready_page).
Proof.
  split.
  - apply (proj1 (getUserInfo_storage_precedence guarded_session_host
                    ready_page "{oops" ltac:(discriminate))).
    reflexivity.
  - apply (proj2 (getUserInfo_storage_precedence session_host ready_page
                    user_u7_text ltac:(discriminate))).
    + right. reflexivity.
    + reflexivity.
Defined.

Lemma json_member_next (k k' : string) (v : value) (fields : list (string * value)) :
  String.eqb k k' = false ->
  json_member k (JSON_stringify (VObject ((k', v) :: fields))) =
    json_member k (JSON_stringify (VObject fields)).
Proof. intros Hk. destruct v; cbn; now rewrite ?Hk. Qed.

Lemma json_member_here (k : string) (v : value) (fields : list (string * value)) :
  v <> VUndefined ->
  json_member k (JSON_stringify (VObject ((k, v) :: fields))) = Some v.
Proof.
  intros Hv. destruct v; cbn; rewrite ?String.eqb_refl; try reflexivity.
  now elim Hv.
Qed.


Lemma or_else_null_defined (v : value) : or_else v VNull <> VUndefined.
Proof.
  unfold or_else, truthy.
  destruct v as [| |b|n|s|items|fields]; try discriminate.
  - destruct b; discriminate.
  - destruct (ToBoolean_number n); discriminate.
  - destruct (negb (String.eqb s "")); discriminate.
Qed.

(** X19.  The [user_id] of the token POST is the stored record's [userId]
    when that is truthy and [null] otherwise: a record without the member,
    or with 0, the empty string, [false] or [null] in it, is sent as no
    user; and the member is always present in the body. *)
Theorem sendTokenToServer_user_id
    (token parsed uid : value) (text : string) (e : env) (s : state) :
  localStorage_getItem e "leqoehunt_user" = Ok (Some text) ->
  text <> "" ->
  JSON_parse e text = Ok parsed ->
  get parsed "userId" = Ok uid ->
  exists req,
    sendTokenToServer token e s = (Ok tt, posting req s) /\
    url req = "https://leqoehunt.my/api/push-token" /\
    method req = "POST" /\
    json_member "user_id" (body req) =
      Some (if truthy uid then uid else VNull).
Proof.
  intros Hlocal Htext Hparse Huid.
  assert (Hitem : stored_item e = Ok (Some text)).
  { unfold stored_item. rewrite Hlocal.
    destruct (item_truthy (Some text)) eqn:Ht; [reflexivity|].
    cbn in Ht. apply negb_false_iff, String.eqb_eq in Ht. contradiction. }
  pose proof (getUserInfo_parsed e s text _ Hitem Htext Hparse) as Hinfo.
  cbn in Hinfo.
  exists (token_request token (or_else uid VNull) (Date_toISOString e)).
  split; [exact (sendTokenToServer_posts token parsed uid e s s Hinfo Huid)|].
  split; [reflexivity|]. split; [reflexivity|].
  unfold token_request. cbn [body].
  rewrite !json_member_next by reflexivity.
  apply json_member_here, or_else_null_defined.
Qed.

Definition guest_text : string :=
  String.concat "" ["{"; dq; "guest"; dq; ":true}"].

Definition guest_host : env :=
  mkEnv true (fun _ => Ok (Some guest_text)) (fun _ => Ok None)
    (fun text => if String.eqb text guest_text
                 then Ok (VObject [("guest", VBool true)])
                 else Throw SyntaxError)
    "2024-05-01T08:00:00.000Z" (fun _ => false).

Lemma sendTokenToServer_user_id_witness :
  exists req,
    sendTokenToServer (VString "T1") guest_host ready_page =
      (Ok tt, posting req ready_page) /\
    url req = "https://leqoehunt.my/api/push-token" /\
    method req = "POST" /\
    json_member "user_id" (body req) = Some VNull.
Proof.
  apply (sendTokenToServer_user_id (VString "T1")
           (VObject [("guest", VBool true)]) VUndefined guest_text
           guest_host ready_page); try reflexivity; discriminate.
Defined.

(** X20.  A registration payload without a [value] is not rejected: the
    listener stores [undefined] as the token and, with no stored user, still
    sends the POST, whose body then has no [device_token] member at all. *)
Theorem registration_without_value (tok : value) (e : env) (s : state) :
  get tok "value" = Ok VUndefined ->
  localStorage_getItem e "leqoehunt_user" = Ok None ->
  sessionStorage_getItem e "leqoehunt_user" = Ok None ->
  exists req s',
    listener registration tok e s = (Ok tt, s') /\
    deviceToken s' = VUndefined /\
    trace s' = trace s ++ [registration_notice VUndefined; call (fetch req)] /\
    url req = "https://leqoehunt.my/api/push-token" /\
    json_member "device_token" (body req) = None /\
    json_member "user_id" (body req) = Some VNull.
Proof.
  intros Htok Hlocal Hsession.
  assert (Hitem : stored_item e = Ok None).
  { unfold stored_item. now rewrite Hlocal. }
  rewrite (listener_registration tok VUndefined e s Htok).
  rewrite (sendTokenToServer_posts VUndefined no_user VNull e _ _
             (getUserInfo_absent e _ None Hitem eq_refl) eq_refl).
  do 2 eexists. split; [reflexivity|]. split; [reflexivity|].
  split; [cbn; now rewrite <- app_assoc|]. repeat split.
Qed.

Lemma registration_without_value_witness :
  exists req s',
    listener registration (VObject []) (android_host None) ready_page =
      (Ok tt, s') /\
    deviceToken s' = VUndefined /\
    trace s' =
      trace ready_page ++ [registration_notice VUndefined; call (fetch req)] /\
    url req = "https://leqoehunt.my/api/push-token" /\
    json_member "device_token" (body req) = None /\
    json_member "user_id" (body req) = Some VNull.
Proof.
  apply (registration_without_value (VObject []) (android_host None)
           ready_page); reflexivity.
Defined.

(** ** The analytics body *)




(** ** A registration error *)

Lemma registration_error_logged (e : env) (payload reason : value) (s : state) :
  get payload "error" = Ok reason ->
  finish (listener registrationError payload e s) =
    emitting [console error [str "Registration error: "; AV reason]] s.
Proof.
  intros Hreason. unfold listener. now rewrite bind_lift, Hreason.
Qed.

(** X22.  A registration error is reported and nothing else: every
    callback the plugin holds for the event writes one error line with the
    payload's [error] member, one line when the listener is attached once;
    none calls [register] again, and the ready flag, the token, the
    listeners and the page stay as they were, so [isReady] keeps answering
    true after a failed registration. *)
Theorem registration_error_only_logged
    (e : env) (payload reason : value) (s : state) :
  listening registrationError s = true ->
  get payload "error" = Ok reason ->
  step e (Deliver registrationError payload) s =
    Some (mkState (isInitialized s) (deviceToken s) (location_href s)
            (next_node s) (document_head s) (document_body s) (timers s)
            (listeners s) (pending s)
            (trace s ++
             repeat (console error [str "Registration error: "; AV reason])
               (callbacks registrationError s))).
Proof.
  intros Hlistening Hreason. unfold step. rewrite Hlistening. f_equal.
  generalize (callbacks registrationError s) as k.
  assert (H : forall k s0,
             dispatch k (listener registrationError payload) e s0 =
               mkState (isInitialized s0) (deviceToken s0) (location_href s0)
                 (next_node s0) (document_head s0) (document_body s0)
                 (timers s0) (listeners s0) (pending s0)
                 (trace s0 ++
                  repeat (console error [str "Registration error: "; AV reason])
                    k)).
  { intros k. induction k as [|k IH]; intros s0; cbn [dispatch repeat].
    - rewrite app_nil_r. now destruct s0.
    - rewrite (registration_error_logged e payload reason s0 Hreason), IH.
      cbn. now rewrite <- app_assoc. }
  intros k. apply H.
Qed.

Lemma registration_error_only_logged_witness :
  step (android_host None)
    (Deliver registrationError
       (VObject [("error", VString "SERVICE_NOT_AVAILABLE")])) ready_page =
    Some (mkState true VNull app_href 0 [] [] [] four_listeners []
            (trace ready_page ++
             repeat (console error [str "Registration error: ";
                                    AV (VString "SERVICE_NOT_AVAILABLE")])
               (callbacks registrationError ready_page))) /\
  callbacks registrationError ready_page = 1.
Proof.
  split; [|reflexivity].
  apply (registration_error_only_logged (android_host None)
           (VObject [("error", VString "SERVICE_NOT_AVAILABLE")])
           (VString "SERVICE_NOT_AVAILABLE") ready_page); reflexivity.
Defined.

(** ** The two host steps that depend on the page *)

(** The ready page after a second run of [initialize]. *)
Definition attached_twice : state :=
  Eval vm_compute in
    match run [(android_host None, Invoke call_initialize);
               (android_host None, Settle 0 (Resolved (permission "granted")));
               (android_host None, Settle 0 (Resolved VUndefined));
               (android_host None, Settle 0 (Resolved handle));
               (android_host None, Settle 0 (Resolved handle));
               (android_host None, Settle 0 (Resolved handle));
               (android_host None, Settle 0 (Resolved handle))] ready_page with
    | Some s => s
    | None => ready_page
    end.

Definition service_error : value :=
  VObject [("error", VString "SERVICE_NOT_AVAILABLE")].

(** With every listener attached twice one registration error is reported
    twice. *)
Example registration_error_reported_twice :
  callbacks registrationError attached_twice = 2 /\
  step (android_host None) (Deliver registrationError service_error)
    attached_twice =
    Some (emitting
            [console error [str "Registration error: ";
                            AV (VString "SERVICE_NOT_AVAILABLE")];
             console error [str "Registration error: ";
                            AV (VString "SERVICE_NOT_AVAILABLE")]]
            attached_twice).
Proof. split; vm_compute; reflexivity. Qed.

(** The ready page after a notification whose title is markup. *)
Definition markup_page : state :=
  Eval vm_compute in
    match step (android_host None) (Deliver pushNotificationReceived markup_title)
            ready_page with
    | Some s => s
    | None => ready_page
    end.

(** Its banner is in the body, and the click on its close control is not a
    step of the model; the timer still removes it. *)
Example markup_banner_steps :
  attached 0 markup_page = true /\
  step (android_host None) (Dismiss 0) markup_page = None /\
  option_map document_body (step (android_host None) (Fire 0) markup_page) =
    Some [].
Proof. repeat split; vm_compute; reflexivity. Qed.
